(** * Parksy: the parking-candidate pipeline and the conversation engine

    A shallow embedding of [src/app.py] (class [Parksy]).  Python values that
    the code keeps in dictionaries with varying key sets (the parking spots)
    are modelled as association lists of a small JSON-like [value] type;
    records whose shape never varies (a session, a geocoded location, a raw
    provider item) are records with optional fields for the keys the code
    reads through [.get].  Everything that crosses the process boundary
    (HTTP replies, the language model, the clock, the random generator) is an
    explicit input of the turn, gathered in [World]. *)

From Stdlib Require Import ZArith String Ascii List Bool Lia Floats.
From Stdlib Require Import DecimalString DecimalPos.
From Stdlib Require Import Sorted Permutation.
From stdpp Require Import gmap strings.

Set Warnings "-inexact-float,-register-all".

Open Scope string_scope.
Open Scope list_scope.
Open Scope Z_scope.

(** ** Python strings

    [str] is modelled by [string]: the bytes of the UTF-8 encoding of the
    text.  [str.lower] and [str.strip] work on code points, so the text is
    decoded first; a byte that is not part of a well-formed sequence (no
    Python string encodes to it) is carried through unchanged. *)

Definition bytes (l : list N) : string :=
  fold_right (fun n s => String (ascii_of_N n) s) EmptyString l.

Definition bytes_of (s : string) : list N :=
  map N_of_ascii (list_ascii_of_string s).

Definition continuation (b : N) : bool := ((128 <=? b) && (b <? 192))%N.

(** a stray byte, kept apart from the code points *)
Definition stray (b : N) : N := (1114112 + b)%N.

(** the code points of a UTF-8 byte sequence *)
Fixpoint decode (bs : list N) : list N :=
  match bs with
  | [] => []
  | b0 :: r0 =>
      if (b0 <? 128)%N then b0 :: decode r0 else
      match r0 with
      | [] => [stray b0]
      | b1 :: r1 =>
          if ((194 <=? b0) && (b0 <? 224) && continuation b1)%N
          then ((b0 - 192) * 64 + (b1 - 128))%N :: decode r1
          else
            match r1 with
            | [] => stray b0 :: decode r0
            | b2 :: r2 =>
                let cp3 := ((b0 - 224) * 4096 + (b1 - 128) * 64 + (b2 - 128))%N in
                if ((224 <=? b0) && (b0 <? 240) && continuation b1 && continuation b2
                    && (2048 <=? cp3))%N
                then cp3 :: decode r2
                else
                  match r2 with
                  | [] => stray b0 :: decode r0
                  | b3 :: r3 =>
                      let cp4 := ((b0 - 240) * 262144 + (b1 - 128) * 4096
                                  + (b2 - 128) * 64 + (b3 - 128))%N in
                      if ((240 <=? b0) && (b0 <? 245) && continuation b1
                          && continuation b2 && continuation b3
                          && (65536 <=? cp4) && (cp4 <? 1114112))%N
                      then cp4 :: decode r3
                      else stray b0 :: decode r0
                  end
            end
      end
  end.

(** the UTF-8 bytes of one code point *)
Definition encode_point (cp : N) : list N :=
  (if cp <? 128 then [cp]
   else if cp <? 2048 then [192 + cp / 64; 128 + cp mod 64]
   else if cp <? 65536 then [224 + cp / 4096; 128 + (cp / 64) mod 64; 128 + cp mod 64]
   else if cp <? 1114112
        then [240 + cp / 262144; 128 + (cp / 4096) mod 64;
              128 + (cp / 64) mod 64; 128 + cp mod 64]
   else [cp - 1114112])%N.

Definition encode (cps : list N) : string := bytes (flat_map encode_point cps).

(** *** [str.lower]

    The tables are those of CPython 3.11 (Unicode 14.0.0).  A run
    [(first, last, step, image)] says that the code points [first],
    [first + step], ..., [last] are lowered to [image], [image + step], ...;
    ASCII is not in the table. *)

Definition lowercase_runs : list (N * N * N * N) :=
  [
    (192, 214, 1, 224); (216, 222, 1, 248); (256, 302, 2, 257); (306, 310, 2, 307);
    (313, 327, 2, 314); (330, 374, 2, 331); (376, 376, 1, 255); (377, 381, 2, 378);
    (385, 385, 1, 595); (386, 388, 2, 387); (390, 390, 1, 596); (391, 391, 1, 392);
    (393, 394, 1, 598); (395, 395, 1, 396); (398, 398, 1, 477); (399, 399, 1, 601);
    (400, 400, 1, 603); (401, 401, 1, 402); (403, 403, 1, 608); (404, 404, 1, 611);
    (406, 406, 1, 617); (407, 407, 1, 616); (408, 408, 1, 409); (412, 412, 1, 623);
    (413, 413, 1, 626); (415, 415, 1, 629); (416, 420, 2, 417); (422, 422, 1, 640);
    (423, 423, 1, 424); (425, 425, 1, 643); (428, 428, 1, 429); (430, 430, 1, 648);
    (431, 431, 1, 432); (433, 434, 1, 650); (435, 437, 2, 436); (439, 439, 1, 658);
    (440, 440, 1, 441); (444, 444, 1, 445); (452, 452, 1, 454); (453, 453, 1, 454);
    (455, 455, 1, 457); (456, 456, 1, 457); (458, 458, 1, 460); (459, 475, 2, 460);
    (478, 494, 2, 479); (497, 497, 1, 499); (498, 500, 2, 499); (502, 502, 1, 405);
    (503, 503, 1, 447); (504, 542, 2, 505); (544, 544, 1, 414); (546, 562, 2, 547);
    (570, 570, 1, 11365); (571, 571, 1, 572); (573, 573, 1, 410); (574, 574, 1, 11366);
    (577, 577, 1, 578); (579, 579, 1, 384); (580, 580, 1, 649); (581, 581, 1, 652);
    (582, 590, 2, 583); (880, 882, 2, 881); (886, 886, 1, 887); (895, 895, 1, 1011);
    (902, 902, 1, 940); (904, 906, 1, 941); (908, 908, 1, 972); (910, 911, 1, 973);
    (913, 929, 1, 945); (932, 939, 1, 964); (975, 975, 1, 983); (984, 1006, 2, 985);
    (1012, 1012, 1, 952); (1015, 1015, 1, 1016); (1017, 1017, 1, 1010); (1018, 1018, 1, 1019);
    (1021, 1023, 1, 891); (1024, 1039, 1, 1104); (1040, 1071, 1, 1072); (1120, 1152, 2, 1121);
    (1162, 1214, 2, 1163); (1216, 1216, 1, 1231); (1217, 1229, 2, 1218); (1232, 1326, 2, 1233);
    (1329, 1366, 1, 1377); (4256, 4293, 1, 11520); (4295, 4295, 1, 11559); (4301, 4301, 1, 11565);
    (5024, 5103, 1, 43888); (5104, 5109, 1, 5112); (7312, 7354, 1, 4304); (7357, 7359, 1, 4349);
    (7680, 7828, 2, 7681); (7838, 7838, 1, 223); (7840, 7934, 2, 7841); (7944, 7951, 1, 7936);
    (7960, 7965, 1, 7952); (7976, 7983, 1, 7968); (7992, 7999, 1, 7984); (8008, 8013, 1, 8000);
    (8025, 8031, 2, 8017); (8040, 8047, 1, 8032); (8072, 8079, 1, 8064); (8088, 8095, 1, 8080);
    (8104, 8111, 1, 8096); (8120, 8121, 1, 8112); (8122, 8123, 1, 8048); (8124, 8124, 1, 8115);
    (8136, 8139, 1, 8050); (8140, 8140, 1, 8131); (8152, 8153, 1, 8144); (8154, 8155, 1, 8054);
    (8168, 8169, 1, 8160); (8170, 8171, 1, 8058); (8172, 8172, 1, 8165); (8184, 8185, 1, 8056);
    (8186, 8187, 1, 8060); (8188, 8188, 1, 8179); (8486, 8486, 1, 969); (8490, 8490, 1, 107);
    (8491, 8491, 1, 229); (8498, 8498, 1, 8526); (8544, 8559, 1, 8560); (8579, 8579, 1, 8580);
    (9398, 9423, 1, 9424); (11264, 11311, 1, 11312); (11360, 11360, 1, 11361); (11362, 11362, 1, 619);
    (11363, 11363, 1, 7549); (11364, 11364, 1, 637); (11367, 11371, 2, 11368); (11373, 11373, 1, 593);
    (11374, 11374, 1, 625); (11375, 11375, 1, 592); (11376, 11376, 1, 594); (11378, 11378, 1, 11379);
    (11381, 11381, 1, 11382); (11390, 11391, 1, 575); (11392, 11490, 2, 11393); (11499, 11501, 2, 11500);
    (11506, 11506, 1, 11507); (42560, 42604, 2, 42561); (42624, 42650, 2, 42625); (42786, 42798, 2, 42787);
    (42802, 42862, 2, 42803); (42873, 42875, 2, 42874); (42877, 42877, 1, 7545); (42878, 42886, 2, 42879);
    (42891, 42891, 1, 42892); (42893, 42893, 1, 613); (42896, 42898, 2, 42897); (42902, 42920, 2, 42903);
    (42922, 42922, 1, 614); (42923, 42923, 1, 604); (42924, 42924, 1, 609); (42925, 42925, 1, 620);
    (42926, 42926, 1, 618); (42928, 42928, 1, 670); (42929, 42929, 1, 647); (42930, 42930, 1, 669);
    (42931, 42931, 1, 43859); (42932, 42946, 2, 42933); (42948, 42948, 1, 42900); (42949, 42949, 1, 642);
    (42950, 42950, 1, 7566); (42951, 42953, 2, 42952); (42960, 42960, 1, 42961); (42966, 42968, 2, 42967);
    (42997, 42997, 1, 42998); (65313, 65338, 1, 65345); (66560, 66599, 1, 66600); (66736, 66771, 1, 66776);
    (66928, 66938, 1, 66967); (66940, 66954, 1, 66979); (66956, 66962, 1, 66995); (66964, 66965, 1, 67003);
    (68736, 68786, 1, 68800); (71840, 71871, 1, 71872); (93760, 93791, 1, 93792); (125184, 125217, 1, 125218) ]%N.

Definition case_ignorable : list (N * N) :=
  [
    (39, 39); (46, 46); (58, 58); (94, 94); (96, 96); (168, 168);
    (173, 173); (175, 175); (180, 180); (183, 184); (688, 879); (884, 885);
    (890, 890); (900, 901); (903, 903); (1155, 1161); (1369, 1369); (1375, 1375);
    (1425, 1469); (1471, 1471); (1473, 1474); (1476, 1477); (1479, 1479); (1524, 1524);
    (1536, 1541); (1552, 1562); (1564, 1564); (1600, 1600); (1611, 1631); (1648, 1648);
    (1750, 1757); (1759, 1768); (1770, 1773); (1807, 1807); (1809, 1809); (1840, 1866);
    (1958, 1968); (2027, 2037); (2042, 2042); (2045, 2045); (2070, 2093); (2137, 2139);
    (2184, 2184); (2192, 2193); (2200, 2207); (2249, 2306); (2362, 2362); (2364, 2364);
    (2369, 2376); (2381, 2381); (2385, 2391); (2402, 2403); (2417, 2417); (2433, 2433);
    (2492, 2492); (2497, 2500); (2509, 2509); (2530, 2531); (2558, 2558); (2561, 2562);
    (2620, 2620); (2625, 2626); (2631, 2632); (2635, 2637); (2641, 2641); (2672, 2673);
    (2677, 2677); (2689, 2690); (2748, 2748); (2753, 2757); (2759, 2760); (2765, 2765);
    (2786, 2787); (2810, 2815); (2817, 2817); (2876, 2876); (2879, 2879); (2881, 2884);
    (2893, 2893); (2901, 2902); (2914, 2915); (2946, 2946); (3008, 3008); (3021, 3021);
    (3072, 3072); (3076, 3076); (3132, 3132); (3134, 3136); (3142, 3144); (3146, 3149);
    (3157, 3158); (3170, 3171); (3201, 3201); (3260, 3260); (3263, 3263); (3270, 3270);
    (3276, 3277); (3298, 3299); (3328, 3329); (3387, 3388); (3393, 3396); (3405, 3405);
    (3426, 3427); (3457, 3457); (3530, 3530); (3538, 3540); (3542, 3542); (3633, 3633);
    (3636, 3642); (3654, 3662); (3761, 3761); (3764, 3772); (3782, 3782); (3784, 3789);
    (3864, 3865); (3893, 3893); (3895, 3895); (3897, 3897); (3953, 3966); (3968, 3972);
    (3974, 3975); (3981, 3991); (3993, 4028); (4038, 4038); (4141, 4144); (4146, 4151);
    (4153, 4154); (4157, 4158); (4184, 4185); (4190, 4192); (4209, 4212); (4226, 4226);
    (4229, 4230); (4237, 4237); (4253, 4253); (4348, 4348); (4957, 4959); (5906, 5908);
    (5938, 5939); (5970, 5971); (6002, 6003); (6068, 6069); (6071, 6077); (6086, 6086);
    (6089, 6099); (6103, 6103); (6109, 6109); (6155, 6159); (6211, 6211); (6277, 6278);
    (6313, 6313); (6432, 6434); (6439, 6440); (6450, 6450); (6457, 6459); (6679, 6680);
    (6683, 6683); (6742, 6742); (6744, 6750); (6752, 6752); (6754, 6754); (6757, 6764);
    (6771, 6780); (6783, 6783); (6823, 6823); (6832, 6862); (6912, 6915); (6964, 6964);
    (6966, 6970); (6972, 6972); (6978, 6978); (7019, 7027); (7040, 7041); (7074, 7077);
    (7080, 7081); (7083, 7085); (7142, 7142); (7144, 7145); (7149, 7149); (7151, 7153);
    (7212, 7219); (7222, 7223); (7288, 7293); (7376, 7378); (7380, 7392); (7394, 7400);
    (7405, 7405); (7412, 7412); (7416, 7417); (7468, 7530); (7544, 7544); (7579, 7679);
    (8125, 8125); (8127, 8129); (8141, 8143); (8157, 8159); (8173, 8175); (8189, 8190);
    (8203, 8207); (8216, 8217); (8228, 8228); (8231, 8231); (8234, 8238); (8288, 8292);
    (8294, 8303); (8305, 8305); (8319, 8319); (8336, 8348); (8400, 8432); (11388, 11389);
    (11503, 11505); (11631, 11631); (11647, 11647); (11744, 11775); (11823, 11823); (12293, 12293);
    (12330, 12333); (12337, 12341); (12347, 12347); (12441, 12446); (12540, 12542); (40981, 40981);
    (42232, 42237); (42508, 42508); (42607, 42610); (42612, 42621); (42623, 42623); (42652, 42655);
    (42736, 42737); (42752, 42785); (42864, 42864); (42888, 42890); (42994, 42996); (43000, 43001);
    (43010, 43010); (43014, 43014); (43019, 43019); (43045, 43046); (43052, 43052); (43204, 43205);
    (43232, 43249); (43263, 43263); (43302, 43309); (43335, 43345); (43392, 43394); (43443, 43443);
    (43446, 43449); (43452, 43453); (43471, 43471); (43493, 43494); (43561, 43566); (43569, 43570);
    (43573, 43574); (43587, 43587); (43596, 43596); (43632, 43632); (43644, 43644); (43696, 43696);
    (43698, 43700); (43703, 43704); (43710, 43711); (43713, 43713); (43741, 43741); (43756, 43757);
    (43763, 43764); (43766, 43766); (43867, 43871); (43881, 43883); (44005, 44005); (44008, 44008);
    (44013, 44013); (64286, 64286); (64434, 64450); (65024, 65039); (65043, 65043); (65056, 65071);
    (65106, 65106); (65109, 65109); (65279, 65279); (65287, 65287); (65294, 65294); (65306, 65306);
    (65342, 65342); (65344, 65344); (65392, 65392); (65438, 65439); (65507, 65507); (65529, 65531);
    (66045, 66045); (66272, 66272); (66422, 66426); (67456, 67461); (67463, 67504); (67506, 67514);
    (68097, 68099); (68101, 68102); (68108, 68111); (68152, 68154); (68159, 68159); (68325, 68326);
    (68900, 68903); (69291, 69292); (69446, 69456); (69506, 69509); (69633, 69633); (69688, 69702);
    (69744, 69744); (69747, 69748); (69759, 69761); (69811, 69814); (69817, 69818); (69821, 69821);
    (69826, 69826); (69837, 69837); (69888, 69890); (69927, 69931); (69933, 69940); (70003, 70003);
    (70016, 70017); (70070, 70078); (70089, 70092); (70095, 70095); (70191, 70193); (70196, 70196);
    (70198, 70199); (70206, 70206); (70367, 70367); (70371, 70378); (70400, 70401); (70459, 70460);
    (70464, 70464); (70502, 70508); (70512, 70516); (70712, 70719); (70722, 70724); (70726, 70726);
    (70750, 70750); (70835, 70840); (70842, 70842); (70847, 70848); (70850, 70851); (71090, 71093);
    (71100, 71101); (71103, 71104); (71132, 71133); (71219, 71226); (71229, 71229); (71231, 71232);
    (71339, 71339); (71341, 71341); (71344, 71349); (71351, 71351); (71453, 71455); (71458, 71461);
    (71463, 71467); (71727, 71735); (71737, 71738); (71995, 71996); (71998, 71998); (72003, 72003);
    (72148, 72151); (72154, 72155); (72160, 72160); (72193, 72202); (72243, 72248); (72251, 72254);
    (72263, 72263); (72273, 72278); (72281, 72283); (72330, 72342); (72344, 72345); (72752, 72758);
    (72760, 72765); (72767, 72767); (72850, 72871); (72874, 72880); (72882, 72883); (72885, 72886);
    (73009, 73014); (73018, 73018); (73020, 73021); (73023, 73029); (73031, 73031); (73104, 73105);
    (73109, 73109); (73111, 73111); (73459, 73460); (78896, 78904); (92912, 92916); (92976, 92982);
    (92992, 92995); (94031, 94031); (94095, 94111); (94176, 94177); (94179, 94180); (110576, 110579);
    (110581, 110587); (110589, 110590); (113821, 113822); (113824, 113827); (118528, 118573); (118576, 118598);
    (119143, 119145); (119155, 119170); (119173, 119179); (119210, 119213); (119362, 119364); (121344, 121398);
    (121403, 121452); (121461, 121461); (121476, 121476); (121499, 121503); (121505, 121519); (122880, 122886);
    (122888, 122904); (122907, 122913); (122915, 122916); (122918, 122922); (123184, 123197); (123566, 123566);
    (123628, 123631); (125136, 125142); (125252, 125259); (127995, 127999); (917505, 917505); (917536, 917631);
    (917760, 917999) ]%N.

Definition cased_letters : list (N * N) :=
  [
    (65, 90); (97, 122); (170, 170); (181, 181); (186, 186); (192, 214);
    (216, 246); (248, 442); (444, 447); (452, 659); (661, 687); (880, 883);
    (886, 887); (891, 893); (895, 895); (902, 902); (904, 906); (908, 908);
    (910, 929); (931, 1013); (1015, 1153); (1162, 1327); (1329, 1366); (1376, 1416);
    (4256, 4293); (4295, 4295); (4301, 4301); (4304, 4346); (4349, 4351); (5024, 5109);
    (5112, 5117); (7296, 7304); (7312, 7354); (7357, 7359); (7424, 7467); (7531, 7543);
    (7545, 7578); (7680, 7957); (7960, 7965); (7968, 8005); (8008, 8013); (8016, 8023);
    (8025, 8025); (8027, 8027); (8029, 8029); (8031, 8061); (8064, 8116); (8118, 8124);
    (8126, 8126); (8130, 8132); (8134, 8140); (8144, 8147); (8150, 8155); (8160, 8172);
    (8178, 8180); (8182, 8188); (8450, 8450); (8455, 8455); (8458, 8467); (8469, 8469);
    (8473, 8477); (8484, 8484); (8486, 8486); (8488, 8488); (8490, 8493); (8495, 8500);
    (8505, 8505); (8508, 8511); (8517, 8521); (8526, 8526); (8544, 8575); (8579, 8580);
    (9398, 9449); (11264, 11387); (11390, 11492); (11499, 11502); (11506, 11507); (11520, 11557);
    (11559, 11559); (11565, 11565); (42560, 42605); (42624, 42651); (42786, 42863); (42865, 42887);
    (42891, 42894); (42896, 42954); (42960, 42961); (42963, 42963); (42965, 42969); (42997, 42998);
    (43002, 43002); (43824, 43866); (43872, 43880); (43888, 43967); (64256, 64262); (64275, 64279);
    (65313, 65338); (65345, 65370); (66560, 66639); (66736, 66771); (66776, 66811); (66928, 66938);
    (66940, 66954); (66956, 66962); (66964, 66965); (66967, 66977); (66979, 66993); (66995, 67001);
    (67003, 67004); (68736, 68786); (68800, 68850); (71840, 71903); (93760, 93823); (119808, 119892);
    (119894, 119964); (119966, 119967); (119970, 119970); (119973, 119974); (119977, 119980); (119982, 119993);
    (119995, 119995); (119997, 120003); (120005, 120069); (120071, 120074); (120077, 120084); (120086, 120092);
    (120094, 120121); (120123, 120126); (120128, 120132); (120134, 120134); (120138, 120144); (120146, 120485);
    (120488, 120512); (120514, 120538); (120540, 120570); (120572, 120596); (120598, 120628); (120630, 120654);
    (120656, 120686); (120688, 120712); (120714, 120744); (120746, 120770); (120772, 120779); (122624, 122633);
    (122635, 122654); (125184, 125251); (127280, 127305); (127312, 127337); (127344, 127369) ]%N.

Definition in_ranges (ranges : list (N * N)) (cp : N) : bool :=
  existsb (fun r => (fst r <=? cp) && (cp <=? snd r))%N ranges.

Definition in_run (cp : N) (run : N * N * N * N) : bool :=
  let '(first, last, step, _) := run in
  ((first <=? cp) && (cp <=? last) && ((cp - first) mod step =? 0))%N.

(** the lowercase of one code point, out of context *)
Definition lower_point (cp : N) : list N :=
  (if cp <? 128 then (if (65 <=? cp) && (cp <=? 90) then [cp + 32] else [cp])
   else if cp =? 304 then [105; 775]
   else match find (in_run cp) lowercase_runs with
        | Some (first, _, _, image) => [cp - first + image]
        | None => [cp]
        end)%N.

(** [l] without its leading elements on which [p] holds *)
Fixpoint skip (p : N -> bool) (l : list N) : list N :=
  match l with
  | c :: l' => if p c then skip p l' else l
  | [] => []
  end.

(** the capital sigma U+03A3 is lowered to the final form U+03C2 when a
    cased letter precedes it and none follows, case-ignorable characters
    apart; [before] holds the code points that precede it, nearest first *)
Definition final_sigma (before after : list N) : bool :=
  match skip (in_ranges case_ignorable) before with
  | c :: _ => in_ranges cased_letters c
  | [] => false
  end
  && match skip (in_ranges case_ignorable) after with
     | c :: _ => negb (in_ranges cased_letters c)
     | [] => true
     end.

Fixpoint lower_from (before cps : list N) : list N :=
  match cps with
  | [] => []
  | cp :: rest =>
      (if (cp =? 931)%N
       then [if final_sigma before rest then 962%N else 963%N]
       else lower_point cp)
      ++ lower_from (cp :: before) rest
  end.

(** [s.lower()] *)
Definition lower (s : string) : string :=
  encode (lower_from [] (decode (bytes_of s))).

(** [sub in s] *)
Fixpoint contains (sub s : string) : bool :=
  String.prefix sub s ||
  match s with
  | EmptyString => false
  | String _ s' => contains sub s'
  end.

(** [any(term in s for term in terms)] *)
Definition any_in (terms : list string) (s : string) : bool :=
  existsb (fun term => contains term s) terms.

(** [x in xs] for a list of strings *)
Definition in_list (x : string) (xs : list string) : bool :=
  existsb (String.eqb x) xs.

(** *** [str.strip]

    The white space of [str.strip]: the code points on which
    [str.isspace] holds.  In well-formed UTF-8 a string begins (ends) with
    such a character exactly when it begins (ends) with its encoding, so the
    stripping is done on the bytes. *)

Definition white_space : list N :=
  [ 9; 10; 11; 12; 13; 28; 29; 30; 31; 32; 133; 160; 5760;
    8192; 8193; 8194; 8195; 8196; 8197; 8198; 8199; 8200; 8201; 8202;
    8232; 8233; 8239; 8287; 12288 ]%N.

Definition white_space_bytes : list (list ascii) :=
  map (fun cp => map ascii_of_N (encode_point cp)) white_space.

(** [bs] without its prefix [p] *)
Fixpoint drop_prefix (p bs : list ascii) : option (list ascii) :=
  match p, bs with
  | [], _ => Some bs
  | a :: p', b :: bs' => if Ascii.eqb a b then drop_prefix p' bs' else None
  | _ :: _, [] => None
  end.

(** [bs] without the first of [marks] that it begins with *)
Fixpoint drop_mark (marks : list (list ascii)) (bs : list ascii) : option (list ascii) :=
  match marks with
  | [] => None
  | p :: marks' =>
      match drop_prefix p bs with
      | Some rest => Some rest
      | None => drop_mark marks' bs
      end
  end.

(** drop marks from the front until none is left; [fuel] bounds the number
    of rounds, and the length of [bs] is enough of it *)
Fixpoint drop_marks (marks : list (list ascii)) (fuel : nat) (bs : list ascii)
    : list ascii :=
  match fuel with
  | O => bs
  | S fuel' =>
      match drop_mark marks bs with
      | Some rest => drop_marks marks fuel' rest
      | None => bs
      end
  end.

Definition lstrip (bs : list ascii) : list ascii :=
  drop_marks white_space_bytes (length bs) bs.

Definition rstrip (bs : list ascii) : list ascii :=
  rev (drop_marks (map (@rev ascii) white_space_bytes) (length bs) (rev bs)).

(** [s.strip()] *)
Definition strip (s : string) : string :=
  string_of_list_ascii (rstrip (lstrip (list_ascii_of_string s))).

(** [s.replace(old, new)] for a non-empty [old]: the occurrences are taken
    from the left and do not overlap; [skip] counts the bytes of an
    occurrence that are still to be dropped. *)
Fixpoint replace_from (old new s : string) (skip : nat) : string :=
  match s with
  | EmptyString => EmptyString
  | String c s' =>
      match skip with
      | S k => replace_from old new s' k
      | O =>
          if String.prefix old s
          then new +:+ replace_from old new s' (Nat.pred (String.length old))
          else String c (replace_from old new s' O)
      end
  end.

Definition replace (old new s : string) : string := replace_from old new s O.

(** [sep.join(parts)] *)
Fixpoint join (sep : string) (parts : list string) : string :=
  match parts with
  | [] => EmptyString
  | [p] => p
  | p :: ps => p +:+ sep +:+ join sep ps
  end.

(** [str(n)] for an [int] *)
Definition str_of_Z (n : Z) : string := NilZero.string_of_int (Z.to_int n).

(** *** Fixed-point formatting of a float: [f"{x:.Nf}"]

    CPython prints the exact binary value of [x], rounded half-to-even at
    [prec] decimals, and keeps the sign bit (so a small negative number
    prints as [-0.0000]).  [Prim2SF] gives the exact value as
    [(-1)^s * m * 2^e]. *)

Definition round_half_even (num den : Z) : Z :=
  let q := num / den in
  let r := num mod den in
  if 2 * r <? den then q
  else if den <? 2 * r then q + 1
  else if Z.even q then q else q + 1.

Definition zero_pad (width : nat) (s : string) : string :=
  bytes (repeat 48%N (width - String.length s)) +:+ s.

(** the digits of [n / 10^prec], with [prec >= 1] *)
Definition fixed_digits (prec : nat) (n : Z) : string :=
  let p := 10 ^ Z.of_nat prec in
  str_of_Z (n / p) +:+ "." +:+ zero_pad prec (str_of_Z (n mod p)).

Definition sign_text (negative : bool) : string :=
  if negative then "-" else "".

Definition format_f (prec : nat) (x : float) : string :=
  match Prim2SF x with
  | S754_nan => "nan"
  | S754_infinity s => sign_text s +:+ "inf"
  | S754_zero s => sign_text s +:+ fixed_digits prec 0
  | S754_finite s m e =>
      let num := Zpos m * 10 ^ Z.of_nat prec in
      let n := if 0 <=? e then num * 2 ^ e else round_half_even num (2 ^ (- e)) in
      sign_text s +:+ fixed_digits prec n
  end.

(** ** Python values and dictionaries *)

Inductive value : Type :=
| VNone
| VBool (b : bool)
| VInt (z : Z)
| VFloat (x : float)
| VStr (s : string)
| VList (l : list value)
| VDict (d : list (string * value)).

(** A [dict] with string keys, in insertion order. *)
Definition dict : Type := list (string * value).

(** [d.get(k)]: [None] when the key is absent. *)
Fixpoint get (k : string) (d : dict) : option value :=
  match d with
  | [] => None
  | (k', v) :: d' => if String.eqb k k' then Some v else get k d'
  end.

(** [k in d] *)
Definition has_key (k : string) (d : dict) : bool :=
  match get k d with Some _ => true | None => false end.

(** ** Scorer / classifier (pure helpers of the class) *)

(** The currency prefix as the source file has it: the four bytes
    [C2 AC C2 A3]. *)
Definition pound : string := bytes [194; 172; 194; 163]%N.

(** [_estimate_pricing] *)
Definition _estimate_pricing (parking_type : string) (distance : Z) : dict :=
  let base_rate : float :=
    if String.eqb parking_type "parking-garage" then
      if distance <? 500 then 4.0%float else 3.2%float
    else if String.eqb parking_type "on-street-parking" then
      if distance <? 500 then 3.0%float else 2.4%float
    else if String.eqb parking_type "ev-charging" then 2.8%float
    else
      if distance <? 500 then 2.6%float else 2.0%float in
  [ ("hourly_rate", VStr (pound +:+ format_f 2 base_rate));
    ("daily_rate", VStr (pound +:+ format_f 2 (base_rate * 7)%float));
    ("estimated", VBool true) ].

(** [_estimate_availability]; [current_hour] is
    [datetime.datetime.now().hour], read by the caller. *)
Definition _estimate_availability (current_hour : Z) (parking_type : string) : string :=
  if (8 <=? current_hour) && (current_hour <=? 18) then
    if String.eqb parking_type "on-street-parking" then "Limited" else "Good"
  else "Excellent".

(** [_get_features] *)
Definition _get_features (parking_type : string) (distance : Z) : list string :=
  let features :=
    if String.eqb parking_type "parking-garage" then ["Covered"; "Secure"]
    else if String.eqb parking_type "ev-charging"
         then ["EV Charging"; "Electric Vehicle Friendly"]
    else if String.eqb parking_type "on-street-parking" then ["Street Parking"]
    else [] in
  if distance <? 200 then features ++ ["Very Close"]
  else if distance <? 500 then features ++ ["Walking Distance"]
  else features.

(** [_calculate_score] *)
Definition _calculate_score (distance : Z) (parking_type : string) : Z :=
  let score := 50 in
  let score :=
    if distance <? 200 then score + 25
    else if distance <? 500 then score + 20
    else if distance <? 1000 then score + 15
    else score in
  let score :=
    if String.eqb parking_type "parking-garage" then score + 10
    else if String.eqb parking_type "ev-charging" then score + 15
    else score in
  Z.max 0 (Z.min 100 score).

(** ** Raw provider items and the external world *)

(** One item of a HERE discover reply, with the keys the code reads; a
    field is [None] when the key is absent.  A JSON number is read as the
    nearest binary64 float: the code converts an integer coordinate to a
    float wherever it uses one ([math.radians], the format [.4f]); an infinity
    stands for an integer too large for a float, on which that conversion
    raises as the distance computation does on an infinity. *)
Record RawPosition := { lat : option float; lng : option float }.

Record RawAddress := { label : option string }.

Record RawSpot := {
  title : option string;
  position : option RawPosition;
  address : option RawAddress;
  contacts : option value
}.

(** A reply of [requests.get] / [requests.post]: the status line and the
    body when it parses as JSON ([None]: [response.json()] raises). *)
Record HttpReply (A : Type) := { status_code : Z; json : option A }.
Arguments status_code {A} _.
Arguments json {A} _.

(** [response.raise_for_status()] raises on 4xx and 5xx. *)
Definition raises_for_status {A : Type} (r : HttpReply A) : bool :=
  (400 <=? status_code r) && (status_code r <? 600).

Record DiscoverData := { items : option (list RawSpot) }.

Inductive Request : Type :=
| ByQuery (q : string)
| ByCategory (cat_id : string).

Record GeoItem := {
  geo_lat : option float;
  geo_lng : option float;
  geo_label : option string;
  geo_city : option string;
  geo_district : option string
}.

Record GeoData := { geo_items : option (list GeoItem) }.

Inductive LlmOutcome : Type :=
| LlmError                    (* exception, timeout, non-2xx, malformed payload *)
| LlmNoChoices                (* a JSON body without a non-empty 'choices' *)
| LlmContent (content : string).

(** What the outside answers during one turn.  A reply is [None] when the
    call raises (timeout, connection error).  Each discover request of a turn
    is distinct, and a turn geocodes once and calls the language model once.
    [randint i a b] is the result of the [i]-th call [random.randint(a, b)];
    [current_hour req i] is [datetime.datetime.now().hour] as it is read
    while item [i] of the reply to [req] is normalized. *)
Record World := {
  here_geocode : string -> option (HttpReply GeoData);
  here_discover : Request -> option (HttpReply DiscoverData);
  openrouter : LlmOutcome;
  randint : nat -> Z -> Z -> Z;
  current_hour : Request -> nat -> Z
}.

(** the items of a reply, each with the clock reading it meets *)
Definition timed (hours : nat -> Z) (its : list RawSpot) : list (RawSpot * Z) :=
  combine its (map hours (seq 0 (length its))).

(** The dict [geocode_location] returns; it always has these five keys. *)
Record LocationInfo := {
  loc_lat : float;
  loc_lng : float;
  loc_address : string;
  loc_city : string;
  loc_district : string
}.

(** [geocode_location]: a missing ['position'], ['lat'], ['lng'] or
    ['label'] raises [KeyError], which the function catches. *)
Definition geocode_location (w : World) (location : string) : option LocationInfo :=
  match here_geocode w location with
  | None => None
  | Some response =>
      if raises_for_status response then None else
      match json response with
      | None => None
      | Some data =>
          match geo_items data with
          | Some (item :: _) =>
              match geo_lat item, geo_lng item, geo_label item with
              | Some la, Some lo, Some lab =>
                  Some {| loc_lat := la; loc_lng := lo; loc_address := lab;
                          loc_city := default "" (geo_city item);
                          loc_district := default "" (geo_district item) |}
              | _, _, _ => None
              end
          | _ => None
          end
      end
  end.

(** ** Deduplicator *)

(** [float(n)] for an [int]: the nearest binary64 value, ties to even;
    [None] is the [OverflowError] of an integer too large for a float. *)
Definition float_of_int (n : Z) : option float :=
  let x := SF2Prim (binary_normalize prec emax n 0 false) in
  if PrimFloat.is_infinity x then None else Some x.

(** [f"{v:.4f}"]; it raises on a value that is not a number.  An [int] is
    converted to a float first, and a [bool] is an [int]. *)
Definition format_4f (v : value) : option string :=
  match v with
  | VFloat x => Some (format_f 4 x)
  | VInt z =>
      match float_of_int z with
      | Some x => Some (format_f 4 x)
      | None => None
      end
  | VBool b => Some (if b then "1.0000" else "0.0000")
  | _ => None
  end.

(** The key of [_is_duplicate]:
    [f"{pos.get('lat', 0):.4f},{pos.get('lng', 0):.4f}"] with
    [pos = spot.get('position', {})]; [None] when the expression raises. *)
Definition position_key (spot : dict) : option string :=
  match default (VDict []) (get "position" spot) with
  | VDict pos =>
      match format_4f (default (VInt 0) (get "lat" pos)),
            format_4f (default (VInt 0) (get "lng" pos)) with
      | Some a, Some b => Some (a +:+ "," +:+ b)
      | _, _ => None
      end
  | _ => None
  end.

(** the loop of [_is_duplicate] over [existing_spots] *)
Fixpoint key_seen (new_key : string) (existing_spots : list dict) : option bool :=
  match existing_spots with
  | [] => Some false
  | spot :: rest =>
      match position_key spot with
      | None => None
      | Some key => if String.eqb key new_key then Some true else key_seen new_key rest
      end
  end.

(** [_is_duplicate]; [None] when it raises. *)
Definition _is_duplicate (new_spot : dict) (existing_spots : list dict) : option bool :=
  match position_key new_spot with
  | None => None
  | Some new_key => key_seen new_key existing_spots
  end.

(** ** Ranking *)

(** The sort key [x.get('score', 0)]. *)
Definition score_key (x : dict) : Z :=
  match get "score" x with
  | Some (VInt z) => z
  | _ => 0
  end.

(** [list.sort(key=..., reverse=True)] is a stable sort by decreasing key:
    elements with equal keys keep their order.  A stable sort is determined
    by that contract; it is written here as an insertion sort. *)
Fixpoint insert_desc (x : dict) (l : list dict) : list dict :=
  match l with
  | [] => [x]
  | y :: l' =>
      if score_key x <? score_key y then y :: insert_desc x l' else x :: y :: l'
  end.

Definition sort_by_score_desc (l : list dict) : list dict :=
  fold_right insert_desc [] l.

(** ** Synthetic backfill *)

(** [generate_mock_data]; the eight calls of [random.randint] are numbered
    in evaluation order. *)
Definition generate_mock_data (w : World) (location_info : LocationInfo) : list dict :=
  let city := loc_city location_info in
  [ [ ("name", VStr (city +:+ " Multi-Story Car Park"));
      ("address", VStr ("High Street, " +:+ city));
      ("distance", VInt (randint w 0 80 300));
      ("walking_time", VInt (randint w 1 2 4));
      ("parking_type", VStr "parking-garage");
      ("pricing", VDict [ ("hourly_rate", VStr (pound +:+ "3.50"));
                          ("daily_rate", VStr (pound +:+ "18.00")) ]);
      ("availability", VStr "Good");
      ("score", VInt 85);
      ("features", VList [VStr "Covered"; VStr "Secure"; VStr "CCTV"]) ];
    [ ("name", VStr (city +:+ " Pay & Display Zone"));
      ("address", VStr ("Market Street, " +:+ city));
      ("distance", VInt (randint w 2 50 250));
      ("walking_time", VInt (randint w 3 1 3));
      ("parking_type", VStr "on-street-parking");
      ("pricing", VDict [ ("hourly_rate", VStr (pound +:+ "2.80"));
                          ("daily_rate", VStr "Max 4 hours") ]);
      ("availability", VStr "Limited");
      ("score", VInt 70);
      ("features", VList [VStr "Pay & Display"; VStr "Time Limited"]) ];
    [ ("name", VStr (city +:+ " Shopping Centre Car Park"));
      ("address", VStr ("Retail Park, " +:+ city));
      ("distance", VInt (randint w 4 150 400));
      ("walking_time", VInt (randint w 5 3 6));
      ("parking_type", VStr "parking-lot");
      ("pricing", VDict [ ("hourly_rate", VStr (pound +:+ "2.20"));
                          ("daily_rate", VStr (pound +:+ "12.00")) ]);
      ("availability", VStr "Excellent");
      ("score", VInt 75);
      ("features", VList [VStr "Large Capacity"; VStr "Free Sundays"]) ];
    [ ("name", VStr (city +:+ " Council Car Park"));
      ("address", VStr ("Town Centre, " +:+ city));
      ("distance", VInt (randint w 6 200 450));
      ("walking_time", VInt (randint w 7 3 6));
      ("parking_type", VStr "parking-lot");
      ("pricing", VDict [ ("hourly_rate", VStr (pound +:+ "1.80"));
                          ("daily_rate", VStr (pound +:+ "10.00")) ]);
      ("availability", VStr "Good");
      ("score", VInt 72);
      ("features", VList [VStr "Budget Option"; VStr "Council Run"]) ] ].

(** ** Candidate normalizer and aggregator

    [_calculate_distance] is the haversine formula in floating point
    ([math.sin], [math.cos], [math.asin], [math.sqrt], truncated by [int]);
    it stays a parameter: the function from four coordinates to the integer
    number of metres the code obtains, or to [None] when the computation
    raises (as [math.sin] does on an infinity and [int] on a NaN). *)

Section Parksy.

Variable _calculate_distance : float -> float -> float -> float -> option Z.

(** the ['position'] dict of a raw item, as stored in the spot *)
Definition position_dict (spot : RawSpot) : dict :=
  match position spot with
  | None => []
  | Some p =>
      match lat p with Some x => [("lat", VFloat x)] | None => [] end ++
      match lng p with Some y => [("lng", VFloat y)] | None => [] end
  end.

(** [spot.get('position', {}).get('lat', 0)] and the same for ['lng'] *)
Definition spot_lat (spot : RawSpot) : float :=
  match position spot with
  | Some p => default 0%float (lat p)
  | None => 0%float
  end.

Definition spot_lng (spot : RawSpot) : float :=
  match position spot with
  | Some p => default 0%float (lng p)
  | None => 0%float
  end.

Definition parking_terms : list string :=
  ["park"; "garage"; "car"; "space"; "charging"].

(** the chain that determines [parking_type] from the lowered title *)
Definition classify (title_lower : string) : string :=
  if any_in ["garage"; "multi"; "story"] title_lower then "parking-garage"
  else if any_in ["street"; "road"; "meter"] title_lower then "on-street-parking"
  else if any_in ["electric"; "ev"; "charging"] title_lower then "ev-charging"
  else "parking-lot".

(** [_process_parking_spot]; [current_hour] is the clock reading that
    [_estimate_availability] takes.  The body runs inside [try]; of the
    calls it makes on a raw item of this shape only [_calculate_distance]
    can raise, and then the [except] returns [None]. *)
Definition _process_parking_spot (current_hour : Z) (spot : RawSpot)
    (user_lat user_lng : float) : option dict :=
  match _calculate_distance user_lat user_lng (spot_lat spot) (spot_lng spot) with
  | None => None
  | Some distance =>
  match title spot with
  | None => None
  | Some title =>
      if (3000 <? distance) || String.eqb title "" then None else
      let title_lower := lower title in
      if negb (any_in parking_terms title_lower) then None else
      let parking_type := classify title_lower in
      let walking_time := Z.max 1 (distance / 80) in
      Some
        [ ("name", VStr title);
          ("address",
           VStr (default "Address not available"
                   (match address spot with Some a => label a | None => None end)));
          ("distance", VInt distance);
          ("walking_time", VInt walking_time);
          ("position", VDict (position_dict spot));
          ("parking_type", VStr parking_type);
          ("pricing", VDict (_estimate_pricing parking_type distance));
          ("availability", VStr (_estimate_availability current_hour parking_type));
          ("features", VList (map VStr (_get_features parking_type distance)));
          ("score", VInt (_calculate_score distance parking_type));
          ("contacts", default (VList []) (contacts spot)) ]
  end
  end.

(** The body of one search pass over the items of a reply: normalize,
    check for a duplicate, append.  When [_is_duplicate] raises, the [except]
    of the pass ends it and [all_spots] keeps what was appended so far. *)
Fixpoint process_items (lat0 lng0 : float)
    (its : list (RawSpot * Z)) (all_spots : list dict) : list dict :=
  match its with
  | [] => all_spots
  | (spot, current_hour) :: rest =>
      match _process_parking_spot current_hour spot lat0 lng0 with
      | None => process_items lat0 lng0 rest all_spots
      | Some spot_data =>
          match _is_duplicate spot_data all_spots with
          | None => all_spots
          | Some true => process_items lat0 lng0 rest all_spots
          | Some false =>
              process_items lat0 lng0 rest (all_spots ++ [spot_data])
          end
      end
  end.

(** the items a text-query pass iterates over: none when the call or
    [raise_for_status] or [json()] raises, or when ['items'] is absent *)
Definition text_pass_items (reply : option (HttpReply DiscoverData)) : list RawSpot :=
  match reply with
  | None => []
  | Some response =>
      if raises_for_status response then [] else
      match json response with
      | None => []
      | Some data => default [] (items data)
      end
  end.

(** the items a category pass iterates over: [data.get('items', [])] of a
    reply with status 200 *)
Definition category_pass_items (reply : option (HttpReply DiscoverData)) : list RawSpot :=
  match reply with
  | None => []
  | Some response =>
      if status_code response =? 200 then
        match json response with
        | None => []
        | Some data => default [] (items data)
        end
      else []
  end.

Definition search_queries : list string :=
  ["parking"; "car park"; "parking garage"; "street parking"; "parking lot"].

Definition category_ids : list string :=
  ["700-7600-0322"; "700-7600-0323"; "700-7600-0000"].

(** what the pass of one query, or of one category, iterates over *)
Definition text_pass (w : World) (query : string) : list (RawSpot * Z) :=
  timed (current_hour w (ByQuery query))
        (text_pass_items (here_discover w (ByQuery query))).

Definition category_pass (w : World) (cat_id : string) : list (RawSpot * Z) :=
  timed (current_hour w (ByCategory cat_id))
        (category_pass_items (here_discover w (ByCategory cat_id))).

(** [all_spots] after the five text passes *)
Definition text_passes (w : World) (lat0 lng0 : float) : list dict :=
  fold_left
    (fun all_spots query => process_items lat0 lng0 (text_pass w query) all_spots)
    search_queries [].

(** [all_spots] when the passes are over, before it is sorted *)
Definition accumulated_spots (w : World) (lat0 lng0 : float) : list dict :=
  let all_spots := text_passes w lat0 lng0 in
  if (Z.of_nat (length all_spots) <? 5) then
    fold_left
      (fun all_spots cat_id => process_items lat0 lng0 (category_pass w cat_id) all_spots)
      category_ids all_spots
  else all_spots.

(** [search_parking] (its [radius] argument is not used by the code) *)
Definition search_parking (w : World) (lat0 lng0 : float) : list dict :=
  firstn 10 (sort_by_score_desc (accumulated_spots w lat0 lng0)).

(** the list that [process_query] stores and hands to the composer: the
    search result, extended by the mock data and cut to ten when the search
    gave fewer than five *)
Definition backfilled (w : World) (location_info : LocationInfo)
    (parking_data : list dict) : list dict :=
  if (Z.of_nat (length parking_data) <? 5)
  then firstn 10 (parking_data ++ generate_mock_data w location_info)
  else parking_data.

(** ** Session store *)

Record Turn := { user : string; assistant : string }.

Record LastSearch := { spots : list dict; location : string }.

Record Session := {
  history : list Turn;
  last_parking_search : option LastSearch
}.

(** [self.conversations[session_id]['history'].append(...)] *)
Definition append_history (session_id : string) (t : Turn)
    (conversations : gmap string Session) : gmap string Session :=
  alter (fun s => {| history := history s ++ [t];
                     last_parking_search := last_parking_search s |})
        session_id conversations.

(** [self.conversations[session_id]['last_parking_search'] = ...] *)
Definition store_search (session_id : string) (ls : LastSearch)
    (conversations : gmap string Session) : gmap string Session :=
  alter (fun s => {| history := history s; last_parking_search := Some ls |})
        session_id conversations.

(** the first statement of [process_query] *)
Definition init_session (session_id : string)
    (conversations : gmap string Session) : gmap string Session :=
  match conversations !! session_id with
  | Some _ => conversations
  | None => <[session_id := {| history := []; last_parking_search := None |}]> conversations
  end.

(** ** Exceptions *)

Inductive result (A : Type) : Type :=
| Ok (a : A)
| Raise.
#[global] Arguments Ok {A} _.
#[global] Arguments Raise {A}.

Definition bind {A B : Type} (r : result A) (k : A -> result B) : result B :=
  match r with
  | Ok a => k a
  | Raise => Raise
  end.

Notation "'let!' x ':=' e 'in' k" := (bind e (fun x => k))
  (at level 10, x name, e at level 100, k at level 200).

Fixpoint map_result {A B : Type} (f : A -> result B) (l : list A) : result (list B) :=
  match l with
  | [] => Ok []
  | a :: l' =>
      let! b := f a in
      let! bs := map_result f l' in
      Ok (b :: bs)
  end.

(** [d[k]]: [KeyError] when the key is absent *)
Definition subscript (k : string) (d : dict) : result value :=
  match get k d with
  | Some v => Ok v
  | None => Raise
  end.

(** [str(v)], as an f-string interpolates a value.  It is written out for
    the types the code interpolates ([str], [int]) and for [bool] and
    [None]; a float, list or dict is outside the embedding and is treated
    like a failure. *)
Definition py_str (v : value) : result string :=
  match v with
  | VStr s => Ok s
  | VInt z => Ok (str_of_Z z)
  | VBool b => Ok (if b then "True" else "False")
  | VNone => Ok "None"
  | _ => Raise
  end.

(** [f"{d[k]}"] *)
Definition interpolate (k : string) (d : dict) : result string :=
  let! v := subscript k d in py_str v.

(** [f"{d['pricing']['hourly_rate']}"] *)
Definition interpolate_rate (d : dict) : result string :=
  let! pricing := subscript "pricing" d in
  match pricing with
  | VDict pr => interpolate "hourly_rate" pr
  | _ => Raise
  end.

(** ** Follow-up resolver *)

(** [float(s)] on the decimal notation (an optional sign, digits, an
    optional point): the value is [m / 10^d], kept as the pair [(m, d)].
    Python's [float] also reads exponents, [inf], [nan] and surrounding
    blanks; on those the model answers [None], as for a [ValueError]. *)
Definition digit_of (c : ascii) : option Z :=
  let n := N_of_ascii c in
  if ((48 <=? n) && (n <=? 57))%N then Some (Z.of_N (n - 48)) else None.

Fixpoint parse_frac (s : string) (m : Z) (d : nat) (seen : bool) : option (Z * nat) :=
  match s with
  | EmptyString => if seen then Some (m, d) else None
  | String c s' =>
      match digit_of c with
      | Some k => parse_frac s' (10 * m + k) (S d) true
      | None => None
      end
  end.

Fixpoint parse_int (s : string) (m : Z) (seen : bool) : option (Z * nat) :=
  match s with
  | EmptyString => if seen then Some (m, O) else None
  | String c s' =>
      if Ascii.eqb c "." then parse_frac s' m O seen
      else match digit_of c with
           | Some k => parse_int s' (10 * m + k) true
           | None => None
           end
  end.

Definition parse_float (s : string) : option (Z * nat) :=
  match s with
  | String "-" s' =>
      match parse_int s' 0 false with
      | Some (m, d) => Some (- m, d)
      | None => None
      end
  | String "+" s' => parse_int s' 0 false
  | _ => parse_int s 0 false
  end.

(** [a < b] on parsed decimals.  The code compares the floats; rounding to
    binary64 keeps the order, and keeps decimals of a few digits apart. *)
Definition decimal_ltb (a b : Z * nat) : bool :=
  fst a * 10 ^ Z.of_nat (snd b) <? fst b * 10 ^ Z.of_nat (snd a).

(** [min(xs, key=...)] once the keys are computed: the first element whose
    key is minimal. *)
Fixpoint min_from {K : Type} (ltb : K -> K -> bool) (best : dict * K)
    (rest : list (dict * K)) : dict :=
  match rest with
  | [] => fst best
  | (x, k) :: rest' =>
      if ltb k (snd best) then min_from ltb (x, k) rest' else min_from ltb best rest'
  end.

(** [min(xs, key=key)]: [ValueError] on an empty list, and the exception
    of [key] when it raises. *)
Definition min_by {K : Type} (key : dict -> result K) (ltb : K -> K -> bool)
    (xs : list dict) : result dict :=
  let! keyed := map_result (fun x => let! k := key x in Ok (x, k)) xs in
  match keyed with
  | [] => Raise
  | best :: rest => Ok (min_from ltb best rest)
  end.

(** [float(x.get('pricing', {}).get('hourly_rate', '..99').replace('..', ''))] *)
Definition hourly_rate_key (x : dict) : result (Z * nat) :=
  match default (VDict []) (get "pricing" x) with
  | VDict pricing =>
      match default (VStr (pound +:+ "99")) (get "hourly_rate" pricing) with
      | VStr s =>
          match parse_float (replace pound "" s) with
          | Some q => Ok q
          | None => Raise
          end
      | _ => Raise
      end
  | _ => Raise
  end.

(** [x.get('walking_time', 99)], an [int] in every spot the code builds;
    another type is outside the embedding. *)
Definition walking_time_key (x : dict) : result Z :=
  match default (VInt 99) (get "walking_time" x) with
  | VInt z => Ok z
  | _ => Raise
  end.

Definition nl : string := bytes [10]%N.

(** the non-ASCII byte runs of the source's string literals *)
Definition glyph_best : string := bytes [239; 163; 191; 195; 188; 195; 168; 195; 156]%N.
Definition glyph_money : string := bytes [239; 163; 191; 195; 188; 195; 173; 226; 136; 158]%N.
Definition glyph_walk : string := bytes [239; 163; 191; 195; 188; 195; 182; 226; 136; 130]%N.
Definition glyph_parking : string :=
  bytes [239; 163; 191; 195; 188; 195; 150; 195; 184; 195; 148; 226; 136; 143; 195; 168]%N.
Definition glyph_pin : string := bytes [239; 163; 191; 195; 188; 195; 172; 195; 167]%N.
Definition glyph_bullet : string := bytes [226; 128; 154; 195; 132; 194; 162]%N.
Definition glyph_sparkle : string := bytes [226; 128; 154; 195; 186; 194; 174]%N.

Definition follow_up_words : list string := ["best"; "recommend"; "suggest"; "which"].

(** [handle_follow_up_question]: [Ok None] is Python's [return None],
    [Raise] an exception that leaves the method. *)
Definition handle_follow_up_question (user_message session_id : string)
    (conversations : gmap string Session) : result (option string) :=
  match conversations !! session_id with
  | None => Ok None
  | Some session_data =>
      match last_parking_search session_data with
      | None => Ok None
      | Some last_parking_data =>
          let spots := spots last_parking_data in
          let location := location last_parking_data in
          let msg_lower := lower user_message in
          if any_in follow_up_words msg_lower then
            let! top_spot := match spots with [] => Raise | x :: _ => Ok x end in
            let! cheapest := min_by hourly_rate_key decimal_ltb spots in
            let! closest := min_by walking_time_key Z.ltb spots in
            let! top_name := interpolate "name" top_spot in
            let! cheapest_name := interpolate "name" cheapest in
            let! cheapest_rate := interpolate_rate cheapest in
            let! closest_name := interpolate "name" closest in
            let! closest_walk := interpolate "walking_time" closest in
            Ok (Some
              ("Based on your " +:+ location +:+ " search, here are my top picks:" +:+ nl +:+ nl
               +:+ glyph_best +:+ " **Overall Best:** " +:+ top_name +:+ nl
               +:+ "   Best balance of location, price, and features" +:+ nl +:+ nl
               +:+ glyph_money +:+ " **Cheapest:** " +:+ cheapest_name +:+ nl
               +:+ "   Just " +:+ cheapest_rate +:+ "/hour" +:+ nl +:+ nl
               +:+ glyph_walk +:+ " **Closest:** " +:+ closest_name +:+ nl
               +:+ "   Only " +:+ closest_walk +:+ " min walk" +:+ nl +:+ nl
               +:+ "What matters most to you - price, convenience, or security?"))
          else Ok None
      end
  end.

(** ** Response composer *)

(** [', '.join(spot['features'][:n])] under [if spot.get('features')]:
    [Ok None] when the guard is false. *)
Definition features_text (n : nat) (spot : dict) : result (option string) :=
  match get "features" spot with
  | None | Some VNone | Some (VList []) => Ok None
  | Some (VList l) =>
      let! parts := map_result (fun v => match v with VStr s => Ok s | _ => Raise end)
                               (firstn n l) in
      Ok (Some (join ", " parts))
  | Some _ => Raise
  end.

(** the lines that the context gives to one spot; they only reach the
    language model, but building them can raise *)
Definition context_entry (i : Z) (spot : dict) : result string :=
  let! walking := interpolate "walking_time" spot in
  let! name := interpolate "name" spot in
  let! addr := interpolate "address" spot in
  let! rate := interpolate_rate spot in
  let! feats := features_text 3 spot in
  let! avail := interpolate "availability" spot in
  Ok (str_of_Z i +:+ ". " +:+ name +:+ nl
      +:+ "   " +:+ glyph_pin +:+ " " +:+ addr +:+ nl
      +:+ "   " +:+ glyph_walk +:+ " " +:+ walking +:+ " min walk" +:+ " "
      +:+ glyph_bullet +:+ " " +:+ glyph_money +:+ " " +:+ rate +:+ "/hour" +:+ nl
      +:+ match feats with
          | Some f => "   " +:+ glyph_sparkle +:+ " " +:+ f +:+ nl
          | None => ""
          end
      +:+ "   Availability: " +:+ avail +:+ nl +:+ nl).

(** one entry of the fallback summary *)
Definition fallback_entry (i : Z) (spot : dict) : result string :=
  let! name := interpolate "name" spot in
  let! addr := interpolate "address" spot in
  let! walking := interpolate "walking_time" spot in
  let! rate := interpolate_rate spot in
  let! feats := features_text 2 spot in
  Ok (glyph_parking +:+ " **" +:+ str_of_Z i +:+ ". " +:+ name +:+ "**" +:+ nl
      +:+ glyph_pin +:+ " " +:+ addr +:+ nl
      +:+ glyph_walk +:+ " " +:+ walking +:+ " min walk " +:+ glyph_bullet +:+ " "
      +:+ glyph_money +:+ " " +:+ rate +:+ "/hour" +:+ nl
      +:+ match feats with
          | Some f => glyph_sparkle +:+ " " +:+ f +:+ nl
          | None => ""
          end
      +:+ nl).

(** [enumerate(xs, 1)] mapped through [f] *)
Fixpoint enumerate_from {B : Type} (f : Z -> dict -> result B) (i : Z)
    (xs : list dict) : result (list B) :=
  match xs with
  | [] => Ok []
  | x :: xs' =>
      let! b := f i x in
      let! bs := enumerate_from f (i + 1) xs' in
      Ok (b :: bs)
  end.

Definition count_text (parking_data : list dict) : string :=
  str_of_Z (Z.of_nat (length parking_data)).

(** [generate_ai_response].  The request only reaches the collaborator,
    whose outcome is [openrouter w]; the function's own part is which text
    comes back. *)
Definition generate_ai_response (w : World) (parking_data : list dict) : string :=
  let on_exception :=
    match parking_data with
    | _ :: _ =>
        "I found " +:+ count_text parking_data
        +:+ " parking options for you! The search worked but I'm having response issues. Try asking 'which is best?' for recommendations."
    | [] => "I'm having some technical difficulties right now. Could you try asking again?"
    end in
  match enumerate_from context_entry 1 parking_data with
  | Raise => on_exception
  | Ok _ =>
      match openrouter w with
      | LlmError => on_exception
      | LlmContent content => content
      | LlmNoChoices =>
          match parking_data with
          | _ :: _ =>
              match enumerate_from fallback_entry 1 (firstn 5 parking_data) with
              | Raise => on_exception
              | Ok entries =>
                  "I found " +:+ count_text parking_data
                  +:+ " great parking options for you!" +:+ nl +:+ nl
                  +:+ join "" entries
              end
          | [] => "I'm having trouble with my response system, but I'm here to help with parking!"
          end
      end
  end.

(** ** Intent router *)

(** [re.search(pattern, user_input, re.IGNORECASE)] followed by
    [match.group(1)]: the regular-expression engine is Python's library and
    stays a parameter; [None] is no match. *)
Variable re_search : string -> string -> option string.

Definition patterns : list string :=
  [ "(?:at|near|in|around|by|close to|next to)\s+([^?.,!]+?)(?:\s+(?:at|for|during)|\s*[?.,!]|$)";
    "park\s+(?:at|near|in|around|by|close to|next to)\s+([^?.,!]+?)(?:\s+(?:at|for|during)|\s*[?.,!]|$)";
    "parking\s+(?:at|near|in|around|by|close to|next to)\s+([^?.,!]+?)(?:\s+(?:at|for|during)|\s*[?.,!]|$)";
    "(?:where|how|can)\s+.*?(?:at|near|in|around|by)\s+([^?.,!]+?)(?:\s*[?.,!]|$)";
    "going\s+to\s+([^?.,!]+?)(?:\s+(?:at|for|during)|\s*[?.,!]|$)";
    "visiting\s+([^?.,!]+?)(?:\s+(?:at|for|during)|\s*[?.,!]|$)";
    "spots?\s+(?:in|at|near)\s+([^?.,!]+?)(?:\s*[?.,!]|$)";
    "spaces?\s+(?:in|at|near)\s+([^?.,!]+?)(?:\s*[?.,!]|$)" ].

Definition stopwords : list string :=
  ["there"; "here"; "it"; "this"; "that"; "a"; "the"].

Fixpoint first_location (ps : list string) (user_input : string) : option string :=
  match ps with
  | [] => None
  | pattern :: ps' =>
      match re_search pattern user_input with
      | Some group1 =>
          let location := strip group1 in
          if negb (in_list (lower location) stopwords) then Some location
          else first_location ps' user_input
      | None => first_location ps' user_input
      end
  end.

(** [extract_location_from_query] *)
Definition extract_location_from_query (user_input : string) : option string :=
  first_location patterns user_input.

(** ** The turn *)

Inductive outcome : Type :=
| Returns (response : string)
| Raises.

Definition not_found_text (location : string) : string :=
  "Hmm, I'm having trouble finding '" +:+ location
  +:+ "'. Could you be a bit more specific? Maybe include a street address or a well-known landmark?".

Definition greeting : string :=
  "Hey! I'm Parksy, your parking assistant. What can I help you find today?".

(** the [else] branch of [process_query]: open conversation *)
Definition general_conversation (w : World) (user_input session_id : string)
    (conversations : gmap string Session) : outcome * gmap string Session :=
  match openrouter w with
  | LlmContent ai_response =>
      (Returns ai_response,
       append_history session_id {| user := user_input; assistant := ai_response |}
         conversations)
  | _ => (Returns greeting, conversations)
  end.

(** the search path of [process_query], from a resolved location on *)
Definition search_turn (w : World) (user_input session_id location : string)
    (location_info : LocationInfo) (conversations : gmap string Session)
    : outcome * gmap string Session :=
  let parking_data := search_parking w (loc_lat location_info) (loc_lng location_info) in
  let parking_data := backfilled w location_info parking_data in
  let conversations :=
    store_search session_id
      {| spots := parking_data; location := loc_city location_info |} conversations in
  let ai_response := generate_ai_response w parking_data in
  (Returns ai_response,
   append_history session_id {| user := user_input; assistant := ai_response |}
     conversations).

(** [process_query]: the response (or the exception that leaves it) and
    the session store afterwards. *)
Definition process_query (w : World) (user_input session_id : string)
    (conversations : gmap string Session) : outcome * gmap string Session :=
  let conversations := init_session session_id conversations in
  match handle_follow_up_question user_input session_id conversations with
  | Raise => (Raises, conversations)
  | Ok follow_up =>
      match follow_up with
      | Some (String c r as follow_up) =>
          (Returns follow_up,
           append_history session_id {| user := user_input; assistant := follow_up |}
             conversations)
      | _ =>
          match extract_location_from_query user_input with
          | Some (String c r as location) =>
              match geocode_location w location with
              | None =>
                  let response := not_found_text location in
                  (Returns response,
                   append_history session_id {| user := user_input; assistant := response |}
                     conversations)
              | Some location_info =>
                  search_turn w user_input session_id location location_info conversations
              end
          | _ => general_conversation w user_input session_id conversations
          end
      end
  end.

(** ** The chat route *)

(** The JSON object in the body of a POST to [/api/chat], with the two keys
    the route reads; a field is [None] when the key is absent and holds the
    JSON value otherwise. *)
Record ChatRequest := {
  req_message : option value;
  req_session_id : option value
}.

(** What the route answers: the status and the payload the code fills in.
    The ['timestamp'] of a 200 and the text of the exception in a 500 are
    left out. *)
Inductive ChatReply : Type :=
| Chat200 (response session_id : string)
| Chat400
| Chat500.

(** [chat].  The body is [None] when [request.get_json()] raises or gives
    something without a [get] method ([None], a list, a number).
    [data.get('message', '').strip()] raises on a message that is not a
    string, and [session_id not in self.conversations] on a session id that
    cannot be hashed (a list or an object); every exception ends in the 500
    of the route's [except].  A session id that is a number, a boolean or
    [null] is used by the code as the key of the session; the store of this
    embedding has string keys, and the model gives [None] for such a
    request. *)
Definition chat (w : World) (body : option ChatRequest)
    (conversations : gmap string Session)
    : option (ChatReply * gmap string Session) :=
  match body with
  | None => Some (Chat500, conversations)
  | Some data =>
      match default (VStr "") (req_message data) with
      | VStr message =>
          let user_message := strip message in
          if String.eqb user_message "" then Some (Chat400, conversations)
          else
            match default (VStr "web_session") (req_session_id data) with
            | VStr session_id =>
                match process_query w user_message session_id conversations with
                | (Returns response, conversations') =>
                    Some (Chat200 response session_id, conversations')
                | (Raises, conversations') => Some (Chat500, conversations')
                end
            | VList _ | VDict _ => Some (Chat500, conversations)
            | _ => None
            end
      | _ => Some (Chat500, conversations)
      end
  end.

(** * Properties *)

(** ** Scorer *)

(** The score as the specification words it: base 50, a proximity bonus,
    a type bonus, clamped to [0,100]. *)
Definition spec_score (distance : Z) (parking_type : string) : Z :=
  let proximity :=
    if distance <? 200 then 25
    else if distance <? 500 then 20
    else if distance <? 1000 then 15
    else 0 in
  let bonus :=
    if String.eqb parking_type "parking-garage" then 10
    else if String.eqb parking_type "ev-charging" then 15
    else 0 in
  Z.max 0 (Z.min 100 (50 + proximity + bonus)).

(** C9: for every distance and parking type, [_calculate_score] is base 50
    plus 25/20/15/0 by distance band (<200, <500, <1000, otherwise) plus 10
    for a garage or 15 for ev-charging, clamped, and it lies in [0,100]. *)
Theorem calculate_score_spec :
  forall (distance : Z) (parking_type : string),
    _calculate_score distance parking_type = spec_score distance parking_type
    /\ 0 <= _calculate_score distance parking_type <= 100.
Proof.
  intros distance parking_type.
  unfold _calculate_score, spec_score.
  destruct (distance <? 200), (distance <? 500), (distance <? 1000),
    (String.eqb parking_type "parking-garage"),
    (String.eqb parking_type "ev-charging"); cbn; lia.
Qed.

(** C6 (as the code has it): the busy window is the closed range of hours
    8..18.  Inside it on-street parking is "Limited" and every other type
    "Good"; outside it every type is "Excellent". *)
Theorem estimate_availability_cases :
  forall (parking_type : string) (h : Z),
    (8 <= h <= 18 -> parking_type = "on-street-parking" ->
       _estimate_availability h parking_type = "Limited")
    /\ (8 <= h <= 18 -> parking_type <> "on-street-parking" ->
       _estimate_availability h parking_type = "Good")
    /\ (h < 8 \/ 18 < h -> _estimate_availability h parking_type = "Excellent").
Proof.
  intros parking_type h. unfold _estimate_availability.
  repeat split.
  - intros [H1 H2] ->.
    apply Z.leb_le in H1, H2. rewrite H1, H2. reflexivity.
  - intros [H1 H2] Hne.
    apply Z.leb_le in H1, H2. rewrite H1, H2. cbn.
    destruct (String.eqb_spec parking_type "on-street-parking"); congruence.
  - intros [H | H].
    + apply Z.leb_gt in H. rewrite H. reflexivity.
    + apply Z.leb_gt in H. rewrite H, andb_false_r. reflexivity.
Qed.

(** ** Candidate normalizer *)

(** the distance [_process_parking_spot] computes for a raw item; [None]
    when the computation raises *)
Definition distance_of (spot : RawSpot) (user_lat user_lng : float) : option Z :=
  _calculate_distance user_lat user_lng (spot_lat spot) (spot_lng spot).

(** [not spot.get('title')] *)
Definition lacks_title (spot : RawSpot) : Prop :=
  title spot = None \/ title spot = Some "".

(** the lowered title holds none of the parking terms *)
Definition no_parking_term (spot : RawSpot) : Prop :=
  exists t, title spot = Some t /\ any_in parking_terms (lower t) = false.

(** the item lies more than 3000 m from the origin *)
Definition too_far (spot : RawSpot) (user_lat user_lng : float) : Prop :=
  exists dist, distance_of spot user_lat user_lng = Some dist /\ 3000 < dist.

Lemma process_spot_accepts :
  forall hour spot user_lat user_lng t dist,
    title spot = Some t -> t <> "" ->
    distance_of spot user_lat user_lng = Some dist -> dist <= 3000 ->
    any_in parking_terms (lower t) = true ->
    exists d, _process_parking_spot hour spot user_lat user_lng = Some d
              /\ get "name" d = Some (VStr t)
              /\ get "parking_type" d = Some (VStr (classify (lower t)))
              /\ get "distance" d = Some (VInt dist).
Proof.
  intros hour spot user_lat user_lng t dist Ht Hne Hdist Hd Hterm.
  unfold _process_parking_spot, distance_of in *. rewrite Hdist, Ht.
  apply Z.ltb_ge in Hd. rewrite Hd.
  destruct (String.eqb_spec t ""); [contradiction |].
  cbn [orb]. rewrite Hterm. cbn [negb].
  eexists. split; [reflexivity |]. repeat split; reflexivity.
Qed.

Lemma process_spot_rejects_iff :
  forall hour spot user_lat user_lng,
    _process_parking_spot hour spot user_lat user_lng = None <->
    (distance_of spot user_lat user_lng = None
     \/ lacks_title spot \/ too_far spot user_lat user_lng
     \/ no_parking_term spot).
Proof.
  intros hour spot user_lat user_lng.
  unfold lacks_title, no_parking_term, too_far.
  destruct (distance_of spot user_lat user_lng) as [dist |] eqn:Hdist.
  2:{ split; [intros _; left; reflexivity |].
      intros _. unfold _process_parking_spot, distance_of in *. rewrite Hdist.
      reflexivity. }
  destruct (title spot) as [t |] eqn:Ht.
  2:{ split; [intros _; right; left; left; reflexivity |].
      intros _. unfold _process_parking_spot, distance_of in *.
      rewrite Hdist, Ht. reflexivity. }
  destruct (Z.ltb_spec 3000 dist) as [Hfar | Hnear].
  { split; [intros _; right; right; left; exists dist; split; [reflexivity | exact Hfar] |].
    intros _. unfold _process_parking_spot, distance_of in *. rewrite Hdist, Ht.
    apply Z.ltb_lt in Hfar. rewrite Hfar. reflexivity. }
  destruct (String.eqb_spec t "") as [-> | Hne].
  { split; [intros _; right; left; right; reflexivity |].
    intros _. unfold _process_parking_spot, distance_of in *.
    rewrite Hdist, Ht, orb_true_r. reflexivity. }
  destruct (any_in parking_terms (lower t)) eqn:Hterm.
  - destruct (process_spot_accepts hour spot user_lat user_lng t dist
                Ht Hne Hdist Hnear Hterm) as (d & Hd & _).
    rewrite Hd. split; [discriminate |].
    intros [H | [[H | H] | [(dist' & H & Hfar) | (t' & Ht' & H)]]];
      try congruence.
    injection H as <-. lia.
  - split.
    + intros _. right; right; right. exists t. split; [reflexivity | exact Hterm].
    + intros _. unfold _process_parking_spot, distance_of in *. rewrite Hdist, Ht.
      apply Z.ltb_ge in Hnear. rewrite Hnear.
      destruct (String.eqb_spec t ""); [contradiction |].
      cbn [orb]. rewrite Hterm. reflexivity.
Qed.


(** ** Deduplicator *)

Definition keyed (d : dict) : Prop := exists k, position_key d = Some k.

(** two spots have the same key *)
Definition same_key (a b : dict) : bool :=
  match position_key a, position_key b with
  | Some x, Some y => String.eqb x y
  | _, _ => false
  end.

(** First-seen wins, in the specification's words: a spot is kept and
    every later spot with its key is dropped. *)
Fixpoint first_seen (l : list dict) : list dict :=
  match l with
  | [] => []
  | s :: l' => s :: List.filter (fun s' => negb (same_key s s')) (first_seen l')
  end.

(** no spot of [acc] has the key of [s] *)
Definition fresh (acc : list dict) (s : dict) : bool :=
  negb (existsb (fun a => same_key a s) acc).

(** the spots the normalizer accepts among raw items, in order *)
Definition valid_spots (lat0 lng0 : float) (its : list (RawSpot * Z)) : list dict :=
  flat_map (fun r => match _process_parking_spot (snd r) (fst r) lat0 lng0 with
                     | Some d => [d]
                     | None => []
                     end) its.

(** the raw items one run of [search_parking] iterates over, in order *)
Definition text_records (w : World) : list (RawSpot * Z) :=
  flat_map (text_pass w) search_queries.

Definition category_records (w : World) : list (RawSpot * Z) :=
  flat_map (category_pass w) category_ids.

Definition records_seen (w : World) (lat0 lng0 : float) : list (RawSpot * Z) :=
  text_records w ++
  (if Z.of_nat (length (text_passes w lat0 lng0)) <? 5 then category_records w else []).

(** *** Rounding to four decimals, in the specification's words *)

(** [n] is the fraction [num / den] rounded to the nearest integer, a tie
    going to the even neighbour *)
Definition nearest_even (num den n : Z) : Prop :=
  2 * Z.abs (n * den - num) <= den
  /\ (2 * Z.abs (n * den - num) = den -> Z.even n = true).

(** the sign bit of a finite float, and its magnitude times [10^4] as an
    exact fraction (a binary64 number is [m * 2^e]) *)
Definition ten_thousandths (x : float) : option (bool * Z * Z) :=
  match Prim2SF x with
  | S754_zero s => Some (s, 0, 1)
  | S754_finite s m e =>
      if 0 <=? e then Some (s, Zpos m * 10000 * 2 ^ e, 1)
      else Some (s, Zpos m * 10000, 2 ^ (- e))
  | _ => None
  end.

(** [x] rounded to four decimals is [n / 10^4] in magnitude, negative when
    the sign bit of [x] is set *)
Definition rounds_to (x : float) (negative : bool) (n : Z) : Prop :=
  exists num den,
    ten_thousandths x = Some (negative, num, den) /\ nearest_even num den n.


Lemma round_half_even_nearest :
  forall num den, 0 < den -> 0 <= num -> nearest_even num den (round_half_even num den).
Proof.
  intros num den Hden Hnum. unfold nearest_even, round_half_even.
  pose proof (Z.div_mod num den ltac:(lia)) as Hdm.
  pose proof (Z.mod_pos_bound num den Hden) as Hr.
  set (q := num / den) in *. set (r := num mod den) in *.
  destruct (Z.ltb_spec (2 * r) den) as [Hlt | Hge].
  { replace (q * den - num) with (- r) by lia. split; lia. }
  destruct (Z.ltb_spec den (2 * r)) as [Hgt | Hle].
  { replace ((q + 1) * den - num) with (den - r) by lia. split; lia. }
  destruct (Z.even q) eqn:Heven.
  - replace (q * den - num) with (- r) by lia. split; [lia | intros _; exact Heven].
  - replace ((q + 1) * den - num) with (den - r) by lia. split; [lia |].
    intros _. change (q + 1) with (Z.succ q).
    rewrite Z.even_succ, <- Z.negb_even, Heven. reflexivity.
Qed.



(** the fraction of [ten_thousandths] is a proper one *)
Lemma ten_thousandths_fraction :
  forall x s num den, ten_thousandths x = Some (s, num, den) -> 0 < den /\ 0 <= num.
Proof.
  intros x s num den H. unfold ten_thousandths in H.
  destruct (Prim2SF x) as [s0 | s0 | | s0 m e]; try discriminate.
  - injection H as <- <- <-. lia.
  - destruct (Z.leb_spec 0 e).
    + injection H as <- <- <-. split; [lia |].
      apply Z.mul_nonneg_nonneg; [lia | apply Z.pow_nonneg; lia].
    + injection H as <- <- <-. split; [apply Z.pow_pos_nonneg; lia | lia].
Qed.


(** every finite float rounds to something *)
Lemma rounds_to_defined :
  forall x,
    Prim2SF x <> S754_nan -> (forall s, Prim2SF x <> S754_infinity s) ->
    exists s n, rounds_to x s n.
Proof.
  intros x Hnan Hinf. unfold rounds_to.
  destruct (ten_thousandths x) as [[[s num] den] |] eqn:Hx.
  - destruct (ten_thousandths_fraction _ _ _ _ Hx) as [Hden Hnum].
    exists s, (round_half_even num den), num, den.
    split; [reflexivity | apply round_half_even_nearest; assumption].
  - exfalso. unfold ten_thousandths in Hx.
    destruct (Prim2SF x) as [s0 | s0 | | s0 m e]; try discriminate.
    + apply (Hinf s0). reflexivity.
    + apply Hnan. reflexivity.
    + destruct (0 <=? e); discriminate.
Qed.


(** *** Reading the text back *)























(** *** The loop *)

Lemma format_4f_zero : format_4f (VInt 0) = Some "0.0000".
Proof. vm_compute. reflexivity. Qed.

Lemma process_spot_keyed :
  forall hour spot user_lat user_lng d,
    _process_parking_spot hour spot user_lat user_lng = Some d -> keyed d.
Proof.
  intros hour spot user_lat user_lng d H.
  unfold _process_parking_spot in H.
  destruct (_calculate_distance _ _ _ _) as [dist |]; [| discriminate].
  destruct (title spot) as [t |]; [| discriminate].
  destruct ((3000 <? _) || String.eqb t ""); [discriminate |].
  destruct (negb _); [discriminate |].
  injection H as <-.
  unfold keyed, position_key, position_dict.
  cbn [get String.eqb Ascii.eqb Bool.eqb from_option id].
  destruct (position spot) as [p |]; cbn [get from_option id].
  - destruct (lat p), (lng p);
      cbn [app get String.eqb Ascii.eqb Bool.eqb from_option id];
      rewrite ?format_4f_zero; cbn [format_4f]; eexists; reflexivity.
  - rewrite format_4f_zero. eexists; reflexivity.
Qed.

Lemma same_key_refl : forall d, keyed d -> same_key d d = true.
Proof.
  intros d [k Hk]. unfold same_key. rewrite Hk. apply String.eqb_refl.
Qed.

Lemma same_key_trans :
  forall a b c, same_key a b = true -> same_key b c = true -> same_key a c = true.
Proof.
  intros a b c. unfold same_key.
  destruct (position_key a), (position_key b), (position_key c); try discriminate.
  intros H1 H2. apply String.eqb_eq in H1, H2. subst. apply String.eqb_refl.
Qed.

Lemma same_key_eq :
  forall a b, keyed a -> position_key a = position_key b -> same_key a b = true.
Proof.
  intros a b [k Hk] Heq. unfold same_key. rewrite <- Heq, Hk. apply String.eqb_refl.
Qed.


Lemma is_duplicate_keyed :
  forall d acc,
    keyed d -> Forall keyed acc ->
    _is_duplicate d acc = Some (existsb (fun a => same_key a d) acc).
Proof.
  intros d acc [k Hk] Hacc. unfold _is_duplicate. rewrite Hk.
  induction Hacc as [| a acc [ka Hka] _ IH]; [reflexivity |].
  cbn [key_seen existsb]. unfold same_key at 1. rewrite Hka, Hk.
  destruct (String.eqb ka k); [reflexivity | exact IH].
Qed.

Lemma filter_implied :
  forall (f g : dict -> bool) (l : list dict),
    (forall x, f x = true -> g x = true) ->
    List.filter f (List.filter g l) = List.filter f l.
Proof.
  intros f g l Himp. induction l as [| x l IH]; [reflexivity |].
  cbn [List.filter]. destruct (g x) eqn:Hg; cbn [List.filter].
  - rewrite IH. reflexivity.
  - destruct (f x) eqn:Hf; [| exact IH].
    apply Himp in Hf. congruence.
Qed.

Lemma filter_both :
  forall (f g h : dict -> bool) (l : list dict),
    (forall x, h x = f x && g x) ->
    List.filter h l = List.filter f (List.filter g l).
Proof.
  intros f g h l Hh. induction l as [| x l IH]; [reflexivity |].
  cbn [List.filter]. rewrite Hh.
  destruct (g x); cbn [List.filter].
  - rewrite andb_true_r. destruct (f x); rewrite IH; reflexivity.
  - rewrite andb_false_r. exact IH.
Qed.

Lemma fresh_snoc :
  forall acc d x, fresh (acc ++ [d]) x = fresh acc x && negb (same_key d x).
Proof.
  intros acc d x. unfold fresh. rewrite existsb_app. cbn [existsb].
  rewrite orb_false_r, negb_orb. reflexivity.
Qed.

Lemma valid_spots_keyed :
  forall lat0 lng0 its, Forall keyed (valid_spots lat0 lng0 its).
Proof.
  intros lat0 lng0 its. induction its as [| [r hour] its IH]; [constructor |].
  cbn [valid_spots flat_map fst snd].
  destruct (_process_parking_spot hour r lat0 lng0) as [d |] eqn:Hd; [| exact IH].
  constructor; [eapply process_spot_keyed; exact Hd | exact IH].
Qed.

(** The accumulation loop computes the first-seen list. *)
Lemma process_items_first_seen :
  forall lat0 lng0 its acc,
    Forall keyed acc ->
    process_items lat0 lng0 its acc =
    acc ++ List.filter (fresh acc) (first_seen (valid_spots lat0 lng0 its)).
Proof.
  intros lat0 lng0 its. induction its as [| [r hour] its IH]; intros acc Hacc.
  - cbn. rewrite app_nil_r. reflexivity.
  - cbn [process_items valid_spots flat_map fst snd].
    destruct (_process_parking_spot hour r lat0 lng0) as [d |] eqn:Hd.
    2:{ apply IH. exact Hacc. }
    assert (Hk : keyed d) by (eapply process_spot_keyed; exact Hd).
    rewrite (is_duplicate_keyed d acc Hk Hacc).
    cbn [app first_seen List.filter]. fold (valid_spots lat0 lng0 its).
    assert (Hfresh : fresh acc d = negb (existsb (fun a => same_key a d) acc))
      by reflexivity.
    rewrite Hfresh.
    destruct (existsb (fun a => same_key a d) acc) eqn:Hdup; cbn [negb].
    + rewrite (IH acc Hacc). f_equal. symmetry. apply filter_implied.
      intros x Hx. apply negb_true_iff. destruct (same_key d x) eqn:Hs; [| reflexivity].
      apply existsb_exists in Hdup as (a & Ha & Had).
      unfold fresh in Hx. apply negb_true_iff in Hx.
      assert (Hex : existsb (fun a => same_key a x) acc = true).
      { apply existsb_exists. exists a. split; [exact Ha |].
        eapply same_key_trans; eassumption. }
      congruence.
    + rewrite (IH (acc ++ [d])).
      2:{ apply List.Forall_app. split; [exact Hacc | constructor; [exact Hk | constructor]]. }
      rewrite <- app_assoc. cbn [app]. do 2 f_equal.
      apply filter_both. intros x. apply fresh_snoc.
Qed.

Lemma first_seen_incl : forall l d, In d (first_seen l) -> In d l.
Proof.
  induction l as [| s l IH]; intros d H; [exact H |].
  cbn [first_seen] in H. destruct H as [-> | H]; [left; reflexivity |].
  right. apply IH. apply filter_In in H. tauto.
Qed.


Lemma process_items_keyed :
  forall lat0 lng0 its acc,
    Forall keyed acc -> Forall keyed (process_items lat0 lng0 its acc).
Proof.
  intros lat0 lng0 its acc Hacc.
  rewrite process_items_first_seen by exact Hacc.
  apply List.Forall_app. split; [exact Hacc |].
  rewrite List.Forall_forall. intros d Hd. apply filter_In in Hd as [Hd _].
  apply first_seen_incl in Hd.
  pose proof (valid_spots_keyed lat0 lng0 its) as Hv.
  rewrite List.Forall_forall in Hv. apply Hv, Hd.
Qed.

(** Without an exception, two passes in a row are one pass over both
    replies. *)
Lemma process_items_app :
  forall lat0 lng0 a b acc,
    Forall keyed acc ->
    process_items lat0 lng0 (a ++ b) acc =
    process_items lat0 lng0 b (process_items lat0 lng0 a acc).
Proof.
  intros lat0 lng0 a. induction a as [| [r hour] a IH]; intros b acc Hacc; [reflexivity |].
  cbn [app process_items].
  destruct (_process_parking_spot hour r lat0 lng0) as [d |] eqn:Hd.
  2:{ apply IH. exact Hacc. }
  assert (Hk : keyed d) by (eapply process_spot_keyed; exact Hd).
  rewrite (is_duplicate_keyed d acc Hk Hacc).
  destruct (existsb _ acc); [apply IH; exact Hacc |].
  apply IH. apply List.Forall_app. split; [exact Hacc | constructor; [exact Hk | constructor]].
Qed.

Lemma passes_flat_map :
  forall {X : Type} lat0 lng0 (f : X -> list (RawSpot * Z)) (xs : list X) acc,
    Forall keyed acc ->
    fold_left (fun all_spots x => process_items lat0 lng0 (f x) all_spots) xs acc =
    process_items lat0 lng0 (flat_map f xs) acc.
Proof.
  intros X lat0 lng0 f xs. induction xs as [| x xs IH]; intros acc Hacc; [reflexivity |].
  cbn [fold_left flat_map]. rewrite process_items_app by exact Hacc.
  apply IH. apply process_items_keyed. exact Hacc.
Qed.

Lemma text_passes_records :
  forall w lat0 lng0,
    text_passes w lat0 lng0 = process_items lat0 lng0 (text_records w) [].
Proof.
  intros w lat0 lng0. unfold text_passes, text_records.
  apply (passes_flat_map lat0 lng0 (text_pass w)).
  constructor.
Qed.

Lemma accumulated_records :
  forall w lat0 lng0,
    accumulated_spots w lat0 lng0 =
    process_items lat0 lng0 (records_seen w lat0 lng0) [].
Proof.
  intros w lat0 lng0. unfold accumulated_spots, records_seen.
  destruct (Z.of_nat (length (text_passes w lat0 lng0)) <? 5).
  - rewrite process_items_app by constructor.
    rewrite <- text_passes_records.
    apply (passes_flat_map lat0 lng0 (category_pass w)).
    rewrite text_passes_records. apply process_items_keyed. constructor.
  - rewrite app_nil_r. apply text_passes_records.
Qed.

Lemma accumulated_first_seen :
  forall w lat0 lng0,
    accumulated_spots w lat0 lng0 =
    first_seen (valid_spots lat0 lng0 (records_seen w lat0 lng0)).
Proof.
  intros w lat0 lng0. rewrite accumulated_records.
  rewrite process_items_first_seen by constructor.
  cbn [app]. unfold fresh. cbn [existsb negb].
  induction (first_seen _) as [| x l IH]; [reflexivity |].
  cbn [List.filter]. rewrite IH. reflexivity.
Qed.




Lemma same_key_sym : forall a b, same_key a b = same_key b a.
Proof.
  intros a b. unfold same_key.
  destruct (position_key a), (position_key b); try reflexivity. apply String.eqb_sym.
Qed.

(** a predicate that only looks at the key *)
Definition by_key (g : dict -> bool) : Prop :=
  forall a b, same_key a b = true -> g a = g b.

Lemma by_key_not_same : forall x, by_key (fun y => negb (same_key x y)).
Proof.
  intros x a b Hab. f_equal.
  destruct (same_key x a) eqn:Hxa.
  - symmetry. eapply same_key_trans; eassumption.
  - destruct (same_key x b) eqn:Hxb; [| reflexivity].
    rewrite same_key_sym in Hab.
    rewrite (same_key_trans x b a Hxb Hab) in Hxa. discriminate.
Qed.




(** the fields of an accepted spot, read from the raw item *)
Lemma process_spot_fields :
  forall hour spot user_lat user_lng d,
    _process_parking_spot hour spot user_lat user_lng = Some d ->
    exists t dist,
      title spot = Some t /\ t <> ""
      /\ distance_of spot user_lat user_lng = Some dist /\ dist <= 3000
      /\ any_in parking_terms (lower t) = true
      /\ get "name" d = Some (VStr t)
      /\ get "distance" d = Some (VInt dist)
      /\ get "walking_time" d = Some (VInt (Z.max 1 (dist / 80)))
      /\ get "position" d = Some (VDict (position_dict spot))
      /\ get "parking_type" d = Some (VStr (classify (lower t)))
      /\ get "score" d = Some (VInt (_calculate_score dist (classify (lower t)))).
Proof.
  intros hour spot user_lat user_lng d H.
  unfold _process_parking_spot in H. unfold distance_of.
  destruct (_calculate_distance _ _ _ _) as [dist |]; [| discriminate].
  destruct (title spot) as [t |]; [| discriminate].
  destruct (Z.ltb_spec 3000 dist); [discriminate |].
  destruct (String.eqb_spec t ""); [discriminate |].
  cbn [orb] in H.
  destruct (any_in parking_terms (lower t)) eqn:Hterm; [| discriminate].
  cbn [negb] in H. injection H as <-.
  exists t, dist. repeat split; try reflexivity; assumption.
Qed.

Lemma process_spot_key_text :
  forall hour spot user_lat user_lng d,
    _process_parking_spot hour spot user_lat user_lng = Some d ->
    position_key d
    = Some (format_f 4 (spot_lat spot) +:+ "," +:+ format_f 4 (spot_lng spot)).
Proof.
  intros hour spot user_lat user_lng d H.
  destruct (process_spot_fields hour spot user_lat user_lng d H)
    as (t & dist & _ & _ & _ & _ & _ & _ & _ & _ & Hpos & _).
  unfold position_key. rewrite Hpos. cbn [from_option id].
  unfold position_dict, spot_lat, spot_lng.
  destruct (position spot) as [p |]; [| vm_compute; reflexivity].
  destruct (lat p), (lng p);
    cbn [app get String.eqb Ascii.eqb Bool.eqb from_option id];
    rewrite ?format_4f_zero; reflexivity.
Qed.

Lemma valid_spots_from_normalizer :
  forall lat0 lng0 its d,
    In d (valid_spots lat0 lng0 its) ->
    exists r, In r its /\ _process_parking_spot (snd r) (fst r) lat0 lng0 = Some d.
Proof.
  intros lat0 lng0 its d H. unfold valid_spots in H.
  apply in_flat_map in H as (r & Hr & Hd). exists r. split; [exact Hr |].
  destruct (_process_parking_spot (snd r) (fst r) lat0 lng0) as [d' |]; [| destruct Hd].
  destruct Hd as [-> | []]. reflexivity.
Qed.

(** every entry of a search result was built by the normalizer from an item
    of a reply *)
Lemma valid_spots_in :
  forall lat0 lng0 its r d,
    In r its -> _process_parking_spot (snd r) (fst r) lat0 lng0 = Some d ->
    In d (valid_spots lat0 lng0 its).
Proof.
  intros lat0 lng0 its r d Hr Hd. unfold valid_spots. apply in_flat_map.
  exists r. split; [exact Hr |]. rewrite Hd. left. reflexivity.
Qed.




(** ** Ranking *)

(** [a] may stand before [b]: its score is not lower *)
Definition by_score_desc (a b : dict) : Prop := score_key b <= score_key a.

Definition has_score (k : Z) (d : dict) : bool := score_key d =? k.

Lemma insert_desc_perm : forall x l, Permutation (insert_desc x l) (x :: l).
Proof.
  intros x l. induction l as [| y l IH]; [reflexivity |].
  cbn [insert_desc]. destruct (score_key x <? score_key y); [| reflexivity].
  rewrite IH. apply perm_swap.
Qed.

Lemma sort_perm : forall l, Permutation (sort_by_score_desc l) l.
Proof.
  induction l as [| x l IH]; [reflexivity |].
  cbn [sort_by_score_desc fold_right]. fold (sort_by_score_desc l).
  rewrite insert_desc_perm. apply perm_skip, IH.
Qed.

Lemma insert_desc_sorted :
  forall x l,
    StronglySorted by_score_desc l -> StronglySorted by_score_desc (insert_desc x l).
Proof.
  intros x l Hl. induction Hl as [| y l Hl IH Hy].
  - repeat constructor.
  - cbn [insert_desc]. destruct (Z.ltb_spec (score_key x) (score_key y)) as [Hlt | Hge].
    + constructor; [exact IH |].
      rewrite List.Forall_forall in *. intros z Hz.
      apply (Permutation_in _ (insert_desc_perm x l)) in Hz as [<- | Hz].
      * unfold by_score_desc. lia.
      * apply Hy, Hz.
    + constructor; [constructor; assumption |].
      constructor; [exact Hge |].
      rewrite List.Forall_forall in *. intros z Hz.
      specialize (Hy z Hz). unfold by_score_desc in *. lia.
Qed.

Lemma sort_sorted : forall l, StronglySorted by_score_desc (sort_by_score_desc l).
Proof.
  induction l as [| x l IH]; [constructor |].
  cbn [sort_by_score_desc fold_right]. apply insert_desc_sorted, IH.
Qed.

Lemma insert_desc_stable :
  forall k x l,
    List.filter (has_score k) (insert_desc x l) = List.filter (has_score k) (x :: l).
Proof.
  intros k x l. induction l as [| y l IH]; [reflexivity |].
  cbn [insert_desc]. destruct (Z.ltb_spec (score_key x) (score_key y)) as [Hlt | Hge];
    [| reflexivity].
  cbn [List.filter] in *. rewrite IH. unfold has_score.
  destruct (Z.eqb_spec (score_key x) k), (Z.eqb_spec (score_key y) k);
    try reflexivity; lia.
Qed.

Lemma sort_stable :
  forall k l,
    List.filter (has_score k) (sort_by_score_desc l) = List.filter (has_score k) l.
Proof.
  intros k l. induction l as [| x l IH]; [reflexivity |].
  cbn [sort_by_score_desc fold_right]. fold (sort_by_score_desc l).
  rewrite insert_desc_stable. cbn [List.filter]. rewrite IH. reflexivity.
Qed.

Lemma firstn_sorted :
  forall n l, StronglySorted by_score_desc l -> StronglySorted by_score_desc (firstn n l).
Proof.
  intros n l Hl. revert n. induction Hl as [| y l Hl IH Hy]; intros [| n];
    cbn [firstn]; try constructor.
  - apply IH.
  - rewrite List.Forall_forall in *. intros z Hz. apply Hy.
    rewrite <- (firstn_skipn n l). apply in_or_app. left. exact Hz.
Qed.

(** ** Synthetic backfill *)

Definition real_keys : list string :=
  ["name"; "address"; "distance"; "walking_time"; "position"; "parking_type";
   "pricing"; "availability"; "features"; "score"; "contacts"].

Definition mock_keys : list string :=
  ["name"; "address"; "distance"; "walking_time"; "parking_type"; "pricing";
   "availability"; "score"; "features"].

Lemma has_key_keys : forall k d, has_key k d = in_list k (map fst d).
Proof.
  intros k d. unfold has_key, in_list. induction d as [| [k' v] d IH]; [reflexivity |].
  cbn [get map fst existsb]. destruct (String.eqb k k'); [reflexivity | exact IH].
Qed.

Lemma process_spot_keys :
  forall hour spot user_lat user_lng d,
    _process_parking_spot hour spot user_lat user_lng = Some d -> map fst d = real_keys.
Proof.
  intros hour spot user_lat user_lng d H.
  unfold _process_parking_spot in H.
  destruct (_calculate_distance _ _ _ _) as [dist |]; [| discriminate].
  destruct (title spot) as [t |]; [| discriminate].
  destruct ((3000 <? _) || String.eqb t ""); [discriminate |].
  destruct (negb _); [discriminate |].
  injection H as <-. reflexivity.
Qed.

Lemma mock_data_keys :
  forall w location_info,
    Forall (fun d => map fst d = mock_keys) (generate_mock_data w location_info).
Proof. intros w location_info. repeat constructor. Qed.

Lemma search_from_normalizer :
  forall w lat0 lng0 d,
    In d (search_parking w lat0 lng0) ->
    exists r, In r (records_seen w lat0 lng0)
              /\ _process_parking_spot (snd r) (fst r) lat0 lng0 = Some d.
Proof.
  intros w lat0 lng0 d H. unfold search_parking in H.
  assert (Hs : In d (sort_by_score_desc (accumulated_spots w lat0 lng0))).
  { rewrite <- (firstn_skipn 10 (sort_by_score_desc _)). apply in_or_app. left. exact H. }
  apply (Permutation_in _ (sort_perm _)) in Hs.
  rewrite accumulated_first_seen in Hs. apply first_seen_incl in Hs.
  apply valid_spots_from_normalizer, Hs.
Qed.

Lemma search_length : forall w lat0 lng0, (length (search_parking w lat0 lng0) <= 10)%nat.
Proof. intros. unfold search_parking. apply firstn_le_length. Qed.

Lemma backfilled_eq :
  forall w location_info real,
    backfilled w location_info real =
    if Z.of_nat (length real) <? 5 then real ++ generate_mock_data w location_info else real.
Proof.
  intros w location_info real. unfold backfilled.
  destruct (Z.ltb_spec (Z.of_nat (length real)) 5) as [Hlt | Hge]; [| reflexivity].
  apply firstn_all2. rewrite length_app. cbn [generate_mock_data length]. lia.
Qed.

Lemma backfilled_length :
  forall w location_info real,
    (length real <= 10)%nat -> (length (backfilled w location_info real) <= 10)%nat.
Proof.
  intros w location_info real H. unfold backfilled.
  destruct (Z.of_nat (length real) <? 5); [apply firstn_le_length | exact H].
Qed.

(** C1 (as the code has it): the search result is the accumulated list in
    a stable sort by decreasing score (ties in discovery order), cut to ten.
    With five or more entries it is the final list as it is.  With fewer, the
    four synthetic entries follow the real ones in the order they are
    generated (scores 85, 70, 75, 72); the list is not sorted again. *)
Theorem ranking_then_backfill :
  forall (w : World) (lat0 lng0 : float) (location_info : LocationInfo),
    let all_spots := accumulated_spots w lat0 lng0 in
    let real := search_parking w lat0 lng0 in
    real = firstn 10 (sort_by_score_desc all_spots)
    /\ StronglySorted by_score_desc (sort_by_score_desc all_spots)
    /\ Permutation (sort_by_score_desc all_spots) all_spots
    /\ (forall k, List.filter (has_score k) (sort_by_score_desc all_spots) =
                  List.filter (has_score k) all_spots)
    /\ StronglySorted by_score_desc real
    /\ backfilled w location_info real =
         (if Z.of_nat (length real) <? 5
          then real ++ generate_mock_data w location_info else real)
    /\ map score_key (generate_mock_data w location_info) = [85; 70; 75; 72].
Proof.
  intros w lat0 lng0 location_info all_spots real. subst all_spots real.
  split; [reflexivity |].
  split; [apply sort_sorted |].
  split; [apply sort_perm |].
  split; [intros k; apply sort_stable |].
  split; [apply firstn_sorted, sort_sorted |].
  split; [apply backfilled_eq | reflexivity].
Qed.

(** C2 (as the code has it): a search result of fewer than five entries
    (which is to say fewer than five accepted candidates) is followed by the
    four entries of [generate_mock_data]; one of five or more is left as it
    is.  No entry has an ['isSynthetic'] key: a synthetic entry is told from
    a real one by its keys (it has no ['position'] and no ['contacts'], a real
    one has both). *)
Theorem backfill_trigger :
  forall (w : World) (lat0 lng0 : float) (location_info : LocationInfo),
    let real := search_parking w lat0 lng0 in
    let mock_data := generate_mock_data w location_info in
    let final := backfilled w location_info real in
    (Z.of_nat (length real) <? 5) = (Z.of_nat (length (accumulated_spots w lat0 lng0)) <? 5)
    /\ final = (if Z.of_nat (length real) <? 5 then real ++ mock_data else real)
    /\ length mock_data = 4%nat
    /\ Forall (fun d => has_key "position" d = true) real
    /\ Forall (fun d => has_key "position" d = false) mock_data
    /\ Forall (fun d => has_key "isSynthetic" d = false) final
    /\ Forall (fun d => has_key "contacts" d = true) real
    /\ Forall (fun d => has_key "contacts" d = false) mock_data.
Proof.
  intros w lat0 lng0 location_info real mock_data final. subst real mock_data final.
  assert (Hreal : Forall (fun d => map fst d = real_keys) (search_parking w lat0 lng0)).
  { rewrite List.Forall_forall. intros d Hd.
    apply search_from_normalizer in Hd as (r & _ & Hr).
    eapply process_spot_keys. exact Hr. }
  pose proof (mock_data_keys w location_info) as Hmock.
  split.
  { unfold search_parking. rewrite length_firstn.
    rewrite (Permutation_length (sort_perm (accumulated_spots w lat0 lng0))).
    destruct (Z.ltb_spec (Z.of_nat (length (accumulated_spots w lat0 lng0))) 5);
      destruct (Z.ltb_spec
                  (Z.of_nat (Nat.min 10 (length (accumulated_spots w lat0 lng0)))) 5);
      try reflexivity; lia. }
  split; [apply backfilled_eq |].
  split; [reflexivity |].
  split.
  { eapply List.Forall_impl; [| exact Hreal]. cbn beta. intros d Hd.
    rewrite has_key_keys, Hd. reflexivity. }
  split.
  { eapply List.Forall_impl; [| exact Hmock]. cbn beta. intros d Hd.
    rewrite has_key_keys, Hd. reflexivity. }
  split.
  { rewrite backfilled_eq.
    assert (Hr2 : Forall (fun d => has_key "isSynthetic" d = false)
                    (search_parking w lat0 lng0)).
    { eapply List.Forall_impl; [| exact Hreal]. cbn beta. intros d Hd.
      rewrite has_key_keys, Hd. reflexivity. }
    destruct (Z.of_nat (length (search_parking w lat0 lng0)) <? 5); [| exact Hr2].
    apply List.Forall_app. split; [exact Hr2 |].
    eapply List.Forall_impl; [| exact Hmock]. cbn beta. intros d Hd.
    rewrite has_key_keys, Hd. reflexivity. }
  split.
  { eapply List.Forall_impl; [| exact Hreal]. cbn beta. intros d Hd.
    rewrite has_key_keys, Hd. reflexivity. }
  eapply List.Forall_impl; [| exact Hmock]. cbn beta. intros d Hd.
  rewrite has_key_keys, Hd. reflexivity.
Qed.

(** ** The session store across turns *)

Definition history_of (session_id : string) (conversations : gmap string Session)
    : list Turn :=
  match conversations !! session_id with
  | Some s => history s
  | None => []
  end.

Definition last_search_of (session_id : string) (conversations : gmap string Session)
    : option LastSearch :=
  match conversations !! session_id with
  | Some s => last_parking_search s
  | None => None
  end.

(** the session stores reached from an empty store by any sequence of
    turns, whatever the outside answers *)
Inductive reachable : gmap string Session -> Prop :=
| reachable_empty : reachable ∅
| reachable_turn : forall w user_input session_id conversations,
    reachable conversations ->
    reachable (snd (process_query w user_input session_id conversations)).

Lemma init_session_present :
  forall sid (c : gmap string Session), is_Some (init_session sid c !! sid).
Proof.
  intros sid c. unfold init_session. destruct (c !! sid) eqn:H.
  - rewrite H. eauto.
  - rewrite lookup_insert_eq. eauto.
Qed.

Lemma history_init :
  forall sid sid' (c : gmap string Session),
    history_of sid' (init_session sid c) = history_of sid' c.
Proof.
  intros sid sid' c. unfold history_of, init_session.
  destruct (c !! sid) eqn:H; [reflexivity |].
  destruct (decide (sid = sid')) as [<- | Hne].
  - rewrite lookup_insert_eq, H. reflexivity.
  - rewrite lookup_insert_ne by exact Hne. reflexivity.
Qed.

Lemma last_search_init :
  forall sid sid' (c : gmap string Session),
    last_search_of sid' (init_session sid c) = last_search_of sid' c.
Proof.
  intros sid sid' c. unfold last_search_of, init_session.
  destruct (c !! sid) eqn:H; [reflexivity |].
  destruct (decide (sid = sid')) as [<- | Hne].
  - rewrite lookup_insert_eq, H. reflexivity.
  - rewrite lookup_insert_ne by exact Hne. reflexivity.
Qed.

Lemma history_append :
  forall sid t (c : gmap string Session),
    is_Some (c !! sid) ->
    history_of sid (append_history sid t c) = history_of sid c ++ [t].
Proof.
  intros sid t c [s Hs]. unfold history_of, append_history.
  rewrite lookup_alter_eq, Hs. reflexivity.
Qed.

Lemma last_search_append :
  forall sid sid' t (c : gmap string Session),
    last_search_of sid' (append_history sid t c) = last_search_of sid' c.
Proof.
  intros sid sid' t c. unfold last_search_of, append_history.
  destruct (decide (sid = sid')) as [<- | Hne].
  - rewrite lookup_alter_eq. destruct (c !! sid); reflexivity.
  - rewrite lookup_alter_ne by exact Hne. reflexivity.
Qed.

Lemma store_search_present :
  forall sid ls (c : gmap string Session),
    is_Some (c !! sid) -> is_Some (store_search sid ls c !! sid).
Proof.
  intros sid ls c [s Hs]. unfold store_search. rewrite lookup_alter_eq, Hs. cbn. eauto.
Qed.

Lemma history_store :
  forall sid sid' ls (c : gmap string Session),
    history_of sid' (store_search sid ls c) = history_of sid' c.
Proof.
  intros sid sid' ls c. unfold history_of, store_search.
  destruct (decide (sid = sid')) as [<- | Hne].
  - rewrite lookup_alter_eq. destruct (c !! sid); reflexivity.
  - rewrite lookup_alter_ne by exact Hne. reflexivity.
Qed.

Lemma last_search_store :
  forall sid sid' ls (c : gmap string Session),
    is_Some (c !! sid) ->
    last_search_of sid' (store_search sid ls c) =
    if decide (sid = sid') then Some ls else last_search_of sid' c.
Proof.
  intros sid sid' ls c [s Hs]. unfold last_search_of, store_search.
  destruct (decide (sid = sid')) as [<- | Hne].
  - rewrite lookup_alter_eq, Hs. reflexivity.
  - rewrite lookup_alter_ne by exact Hne. reflexivity.
Qed.

(** the list a search turn stores for a resolved location *)
Definition final_list (w : World) (location_info : LocationInfo) : list dict :=
  backfilled w location_info
    (search_parking w (loc_lat location_info) (loc_lng location_info)).

(** A turn leaves each session's last search as it was, or stores the
    final list of a search. *)
Lemma last_search_after_turn :
  forall w user_input sid sid' (c : gmap string Session),
    last_search_of sid' (snd (process_query w user_input sid c)) = last_search_of sid' c
    \/ exists location_info,
         last_search_of sid' (snd (process_query w user_input sid c)) =
         Some {| spots := final_list w location_info;
                 location := loc_city location_info |}.
Proof.
  intros w user_input sid sid' c. unfold process_query.
  pose proof (init_session_present sid c) as Hpresent.
  pose proof (last_search_init sid sid' c) as Hinit.
  destruct (handle_follow_up_question user_input sid (init_session sid c))
    as [[[| c0 r0] |] |]; cbn [snd];
    try (left; rewrite ?last_search_append; exact Hinit).
  all: destruct (extract_location_from_query user_input) as [[| c1 r1] |];
    try (unfold general_conversation; destruct (openrouter w); cbn [snd];
         left; rewrite ?last_search_append; exact Hinit).
  all: destruct (geocode_location w (String c1 r1)) as [location_info |]; cbn [snd];
    try (left; rewrite ?last_search_append; exact Hinit).
  all: unfold search_turn; cbn [snd]; rewrite last_search_append,
         (last_search_store sid sid' _ _ Hpresent);
       destruct (decide (sid = sid'));
       [right; exists location_info; reflexivity | left; exact Hinit].
Qed.

(** A property of every final list holds of every stored list. *)
Lemma stored_lists :
  forall (P : list dict -> Prop),
    (forall w location_info, P (final_list w location_info)) ->
    forall c, reachable c ->
    forall sid ls, last_search_of sid c = Some ls -> P (spots ls).
Proof.
  intros P HP c Hc. induction Hc as [| w user_input session_id c Hc IH]; intros sid ls Hls.
  - unfold last_search_of in Hls. rewrite lookup_empty in Hls. discriminate.
  - destruct (last_search_after_turn w user_input session_id sid c)
      as [Hsame | (location_info & Hnew)].
    + rewrite Hsame in Hls. eapply IH. exact Hls.
    + rewrite Hnew in Hls. injection Hls as <-. apply HP.
Qed.

(** C3: a search result has at most ten entries, so has the final list
    after the synthetic backfill, and so has every list stored as a
    session's last search. *)
Theorem result_length_bound :
  (forall (w : World) (lat0 lng0 : float) (location_info : LocationInfo),
      (length (search_parking w lat0 lng0) <= 10)%nat
      /\ (length (backfilled w location_info (search_parking w lat0 lng0)) <= 10)%nat)
  /\ (forall (c : gmap string Session),
        reachable c ->
        forall sid sess ls,
          c !! sid = Some sess -> last_parking_search sess = Some ls ->
          (length (spots ls) <= 10)%nat).
Proof.
  split.
  - intros w lat0 lng0 location_info.
    split; [apply search_length | apply backfilled_length, search_length].
  - intros c Hc sid sess ls Hsess Hls.
    apply (stored_lists (fun l => (length l <= 10)%nat)) with (c := c) (sid := sid).
    + intros w location_info. apply backfilled_length, search_length.
    + exact Hc.
    + unfold last_search_of. rewrite Hsess. exact Hls.
Qed.

(** ** History *)

Lemma follow_up_text_nonempty :
  forall user_message sid (c : gmap string Session) r,
    handle_follow_up_question user_message sid c = Ok (Some r) ->
    exists c0 r0, r = String c0 r0.
Proof.
  intros user_message sid c r H. unfold handle_follow_up_question in H.
  destruct (c !! sid) as [sess |]; [| discriminate].
  destruct (last_parking_search sess) as [ls |]; [| discriminate].
  destruct (any_in follow_up_words (lower user_message)); [| discriminate].
  repeat match type of H with
         | context [bind ?e _] => destruct e; cbn [bind] in H; try discriminate H
         end.
  injection H as <-. do 2 eexists. reflexivity.
Qed.

(** the turn ends in open conversation without a text from the language
    model: the follow-up resolver gives nothing, no location phrase is
    extracted, and the call to the language model fails or gives no choice *)
Definition open_conversation_unanswered (w : World) (user_input sid : string)
    (c : gmap string Session) : Prop :=
  handle_follow_up_question user_input sid (init_session sid c) = Ok None
  /\ (extract_location_from_query user_input = None
      \/ extract_location_from_query user_input = Some "")
  /\ (openrouter w = LlmError \/ openrouter w = LlmNoChoices).

(** Where a turn that returns leaves the history.  If it ends in open
    conversation without a text from the language model, the greeting is
    returned and the history is what it was; in every other case the history
    grows by exactly the pair of the message and the returned text. *)
Lemma history_after_turn :
  forall w user_input sid (c : gmap string Session) response,
    fst (process_query w user_input sid c) = Returns response ->
    (open_conversation_unanswered w user_input sid c ->
       response = greeting
       /\ history_of sid (snd (process_query w user_input sid c)) = history_of sid c)
    /\ (~ open_conversation_unanswered w user_input sid c ->
        history_of sid (snd (process_query w user_input sid c)) =
          history_of sid c ++ [{| user := user_input; assistant := response |}]).
Proof.
  intros w user_input sid c response.
  unfold open_conversation_unanswered, process_query.
  pose proof (init_session_present sid c) as Hpresent.
  pose proof (history_init sid sid c) as Hinit.
  destruct (handle_follow_up_question user_input sid (init_session sid c))
    as [[answer |] |] eqn:Hfollow; [| | discriminate].
  { destruct (follow_up_text_nonempty _ _ _ _ Hfollow) as (c0 & r0 & ->).
    cbn [fst snd]. intros [= <-]. split.
    - intros (Hnone & _). discriminate.
    - intros _. rewrite history_append by exact Hpresent. rewrite Hinit. reflexivity. }
  assert (Hchat :
    fst (general_conversation w user_input sid (init_session sid c)) = Returns response ->
    (openrouter w = LlmError \/ openrouter w = LlmNoChoices ->
       response = greeting
       /\ history_of sid (snd (general_conversation w user_input sid (init_session sid c)))
          = history_of sid c)
    /\ (~ (openrouter w = LlmError \/ openrouter w = LlmNoChoices) ->
        history_of sid (snd (general_conversation w user_input sid (init_session sid c)))
        = history_of sid c ++ [{| user := user_input; assistant := response |}])).
  { unfold general_conversation.
    destruct (openrouter w) as [| | content]; cbn [fst snd]; intros [= <-].
    - split; [intros _; split; [reflexivity | exact Hinit] |].
      intros Hno. exfalso. apply Hno. left. reflexivity.
    - split; [intros _; split; [reflexivity | exact Hinit] |].
      intros Hno. exfalso. apply Hno. right. reflexivity.
    - split; [intros [H | H]; discriminate |].
      intros _. rewrite history_append by exact Hpresent. rewrite Hinit. reflexivity. }
  destruct (extract_location_from_query user_input) as [[| c1 r1] |] eqn:Hextract.
  - intros Hret. destruct (Hchat Hret) as [Hquiet Hloud]. split.
    + intros (_ & _ & Hllm). apply Hquiet, Hllm.
    + intros Hno. apply Hloud. intros Hllm. apply Hno.
      split; [reflexivity |]. split; [right; reflexivity | exact Hllm].
  - destruct (geocode_location w (String c1 r1)) as [location_info |];
      unfold search_turn; cbn [fst snd]; intros [= <-].
    + split; [intros (_ & [H | H] & _); discriminate |].
      intros _. rewrite history_append by (apply store_search_present; exact Hpresent).
      rewrite history_store, Hinit. reflexivity.
    + split; [intros (_ & [H | H] & _); discriminate |].
      intros _. rewrite history_append by exact Hpresent. rewrite Hinit. reflexivity.
  - intros Hret. destruct (Hchat Hret) as [Hquiet Hloud]. split.
    + intros (_ & _ & Hllm). apply Hquiet, Hllm.
    + intros Hno. apply Hloud. intros Hllm. apply Hno.
      split; [reflexivity |]. split; [left; reflexivity | exact Hllm].
Qed.

(** ** Location not found *)

Lemma prefix_append : forall s b, String.prefix s (s +:+ b) = true.
Proof.
  induction s as [| c s IH]; intros b.
  - change (String.prefix "" b = true). destruct b; reflexivity.
  - change (String.prefix (String c s) (String c (s +:+ b)) = true).
    cbn [String.prefix]. destruct (ascii_dec c c); [apply IH | contradiction].
Qed.

Lemma contains_prefix : forall sub s, String.prefix sub s = true -> contains sub s = true.
Proof. intros sub s H. destruct s; cbn [contains]; rewrite H; reflexivity. Qed.

Lemma contains_append_l :
  forall sub p s, contains sub s = true -> contains sub (p +:+ s) = true.
Proof.
  intros sub p s H. induction p as [| c p IH]; [exact H |].
  change (contains sub (String c (p +:+ s)) = true).
  cbn [contains]. rewrite IH. apply orb_true_r.
Qed.

(** C8: when the follow-up resolver does not answer, a location phrase is
    extracted and the geocoder does not resolve it, the turn returns the
    clarifying question, which is the text written out below: it says that
    the place was not found, quotes the phrase and asks for a street address
    or a landmark; the turn is appended to the history with that text; no
    session's last search changes, and no other session is touched. *)
Theorem location_not_found_turn :
  forall (w : World) (user_input sid : string) (c : gmap string Session)
         (location : string),
    handle_follow_up_question user_input sid (init_session sid c) = Ok None ->
    extract_location_from_query user_input = Some location ->
    location <> "" ->
    geocode_location w location = None ->
    fst (process_query w user_input sid c) = Returns (not_found_text location)
    /\ not_found_text location =
       "Hmm, I'm having trouble finding '" +:+ location +:+
       "'. Could you be a bit more specific? Maybe include a street address or a well-known landmark?"
    /\ contains location (not_found_text location) = true
    /\ contains "Could you be a bit more specific?" (not_found_text location) = true
    /\ history_of sid (snd (process_query w user_input sid c)) =
         history_of sid c ++ [{| user := user_input; assistant := not_found_text location |}]
    /\ (forall sid', last_search_of sid' (snd (process_query w user_input sid c)) =
                     last_search_of sid' c)
    /\ (forall sid', sid' <> sid ->
                     snd (process_query w user_input sid c) !! sid' = c !! sid').
Proof.
  intros w user_input sid c location Hfollow Hextract Hne Hgeo.
  unfold process_query. rewrite Hfollow, Hextract.
  destruct location as [| c1 r1]; [contradiction |].
  rewrite Hgeo. cbn [fst snd].
  split; [reflexivity |].
  split; [reflexivity |].
  split.
  { unfold not_found_text. apply contains_append_l, contains_prefix, prefix_append. }
  split.
  { unfold not_found_text.
    apply contains_append_l, contains_append_l.
    change ("'. Could you be a bit more specific? Maybe include a street address or a well-known landmark?")
      with ("'. " +:+ ("Could you be a bit more specific?" +:+
              " Maybe include a street address or a well-known landmark?")).
    apply contains_append_l, contains_prefix, prefix_append. }
  split.
  { rewrite history_append by apply init_session_present.
    rewrite history_init. reflexivity. }
  split.
  { intros sid'. rewrite last_search_append. apply last_search_init. }
  intros sid' Hsid. unfold append_history.
  rewrite lookup_alter_ne by congruence.
  unfold init_session. destruct (c !! sid); [reflexivity |].
  rewrite lookup_insert_ne by congruence. reflexivity.
Qed.

(** ** Follow-up resolver *)

(** what the follow-up resolver needs of a stored spot *)
Definition spot_ok (d : dict) : Prop :=
  (exists n, get "name" d = Some (VStr n))
  /\ (exists z, get "walking_time" d = Some (VInt z))
  /\ (exists pr s q,
        get "pricing" d = Some (VDict pr)
        /\ get "hourly_rate" pr = Some (VStr s)
        /\ parse_float (replace pound "" s) = Some q).

Lemma estimate_pricing_parses :
  forall parking_type distance,
    exists s q,
      get "hourly_rate" (_estimate_pricing parking_type distance) = Some (VStr s)
      /\ parse_float (replace pound "" s) = Some q.
Proof.
  intros parking_type distance. unfold _estimate_pricing.
  destruct (String.eqb parking_type "parking-garage"),
    (String.eqb parking_type "on-street-parking"),
    (String.eqb parking_type "ev-charging"), (distance <? 500);
    eexists; eexists; (split; [reflexivity | vm_compute; reflexivity]).
Qed.

Lemma process_spot_ok :
  forall hour spot user_lat user_lng d,
    _process_parking_spot hour spot user_lat user_lng = Some d -> spot_ok d.
Proof.
  intros hour spot user_lat user_lng d H.
  unfold _process_parking_spot in H.
  destruct (_calculate_distance _ _ _ _) as [dist |]; [| discriminate].
  destruct (title spot) as [t |]; [| discriminate].
  destruct ((3000 <? _) || String.eqb t ""); [discriminate |].
  destruct (negb _); [discriminate |].
  injection H as <-.
  split; [eexists; reflexivity |].
  split; [eexists; reflexivity |].
  destruct (estimate_pricing_parses (classify (lower t)) dist) as (s & q & Hs & Hq).
  exists (_estimate_pricing (classify (lower t)) dist), s, q.
  split; [reflexivity | split; [exact Hs | exact Hq]].
Qed.

Lemma mock_data_ok :
  forall w location_info, Forall spot_ok (generate_mock_data w location_info).
Proof.
  intros w location_info.
  repeat constructor; try (eexists; reflexivity);
    do 3 eexists; (split; [reflexivity | split; [reflexivity | vm_compute; reflexivity]]).
Qed.

Lemma final_list_ok :
  forall w location_info,
    (4 <= length (final_list w location_info))%nat
    /\ Forall spot_ok (final_list w location_info).
Proof.
  intros w location_info. unfold final_list. rewrite backfilled_eq.
  set (real := search_parking w (loc_lat location_info) (loc_lng location_info)).
  assert (Hreal : Forall spot_ok real).
  { rewrite List.Forall_forall. intros d Hd.
    apply search_from_normalizer in Hd as (r & _ & Hr).
    eapply process_spot_ok. exact Hr. }
  destruct (Z.ltb_spec (Z.of_nat (length real)) 5) as [Hlt | Hge].
  - split.
    + rewrite length_app. cbn [generate_mock_data length]. lia.
    + apply List.Forall_app. split; [exact Hreal | apply mock_data_ok].
  - split; [lia | exact Hreal].
Qed.

Lemma keyed_pairs :
  forall {K : Type} (key : dict -> result K) (xs : list dict),
    Forall (fun x => exists k, key x = Ok k) xs ->
    exists ks,
      map_result (fun x => let! k := key x in Ok (x, k)) xs = Ok ks
      /\ map fst ks = xs.
Proof.
  intros K key xs H. induction H as [| x xs [k Hk] _ (ks & Hks & Hfst)].
  - exists []. split; reflexivity.
  - exists ((x, k) :: ks). cbn [map_result]. rewrite Hk. cbn [bind]. rewrite Hks.
    cbn [bind map fst]. rewrite Hfst. split; reflexivity.
Qed.

Lemma min_from_in :
  forall {K : Type} (ltb : K -> K -> bool) (rest : list (dict * K)) (best : dict * K),
    In (min_from ltb best rest) (map fst (best :: rest)).
Proof.
  intros K ltb rest. induction rest as [| [x k] rest IH]; intros best.
  - left. reflexivity.
  - cbn [min_from]. destruct (ltb k (snd best)).
    + right. apply IH.
    + destruct (IH best) as [H | H]; [left; exact H | right; right; exact H].
Qed.

Lemma min_by_defined :
  forall {K : Type} (key : dict -> result K) (ltb : K -> K -> bool) (xs : list dict),
    Forall (fun x => exists k, key x = Ok k) xs -> xs <> [] ->
    exists m, min_by key ltb xs = Ok m /\ In m xs.
Proof.
  intros K key ltb xs H Hne.
  destruct (keyed_pairs key xs H) as (ks & Hks & Hfst).
  unfold min_by. rewrite Hks. cbn [bind].
  destruct ks as [| best rest]; [cbn in Hfst; congruence |].
  eexists. split; [reflexivity |]. rewrite <- Hfst. apply min_from_in.
Qed.

Lemma spot_ok_rate_key : forall d, spot_ok d -> exists k, hourly_rate_key d = Ok k.
Proof.
  intros d (_ & _ & pr & s & q & Hpr & Hs & Hq).
  unfold hourly_rate_key. rewrite Hpr. cbn [from_option id]. rewrite Hs.
  cbn [from_option id]. rewrite Hq. eauto.
Qed.

Lemma spot_ok_walk_key : forall d, spot_ok d -> exists k, walking_time_key d = Ok k.
Proof.
  intros d (_ & (z & Hz) & _). unfold walking_time_key. rewrite Hz. cbn. eauto.
Qed.

Lemma spot_ok_name : forall d, spot_ok d -> exists n, interpolate "name" d = Ok n.
Proof.
  intros d ((n & Hn) & _). unfold interpolate, subscript. rewrite Hn. cbn. eauto.
Qed.

Lemma spot_ok_walk : forall d, spot_ok d -> exists n, interpolate "walking_time" d = Ok n.
Proof.
  intros d (_ & (z & Hz) & _). unfold interpolate, subscript. rewrite Hz. cbn. eauto.
Qed.

Lemma spot_ok_rate : forall d, spot_ok d -> exists n, interpolate_rate d = Ok n.
Proof.
  intros d (_ & _ & pr & s & q & Hpr & Hs & _).
  unfold interpolate_rate, interpolate, subscript. rewrite Hpr. cbn [bind].
  rewrite Hs. cbn. eauto.
Qed.

(** On a non-empty list of well-formed spots the resolver returns. *)
Lemma follow_up_defined :
  forall user_message sid (c : gmap string Session),
    (forall ls, last_search_of sid c = Some ls ->
                spots ls <> [] /\ Forall spot_ok (spots ls)) ->
    exists r, handle_follow_up_question user_message sid c = Ok r.
Proof.
  intros user_message sid c Hok. unfold handle_follow_up_question.
  unfold last_search_of in Hok.
  destruct (c !! sid) as [sess |]; [| eauto].
  destruct (last_parking_search sess) as [ls |]; [| eauto].
  destruct (any_in follow_up_words (lower user_message)); [| eauto].
  destruct (Hok ls eq_refl) as [Hne Hall].
  destruct (spots ls) as [| x xs] eqn:Hspots; [congruence |].
  cbn [bind].
  pose proof Hall as Hall'. rewrite List.Forall_forall in Hall'.
  destruct (min_by_defined hourly_rate_key decimal_ltb (x :: xs)) as (cheapest & -> & Hc).
  { eapply List.Forall_impl; [| exact Hall]. apply spot_ok_rate_key. }
  { discriminate. }
  destruct (min_by_defined walking_time_key Z.ltb (x :: xs)) as (closest & -> & Hw).
  { eapply List.Forall_impl; [| exact Hall]. apply spot_ok_walk_key. }
  { discriminate. }
  cbn [bind].
  destruct (spot_ok_name x (Hall' x (or_introl eq_refl))) as (n1 & ->).
  destruct (spot_ok_name cheapest (Hall' cheapest Hc)) as (n2 & ->).
  destruct (spot_ok_rate cheapest (Hall' cheapest Hc)) as (n3 & ->).
  destruct (spot_ok_name closest (Hall' closest Hw)) as (n4 & ->).
  destruct (spot_ok_walk closest (Hall' closest Hw)) as (n5 & ->).
  cbn [bind]. eauto.
Qed.

(** C10: every list stored as a session's last search has at least four
    entries, and each of them has a name, an integer walking time and an
    hourly rate that reads as a decimal once the currency prefix is removed;
    so on every reachable store the follow-up resolver returns and does not
    raise. *)
Theorem stored_search_supports_follow_up :
  forall (c : gmap string Session),
    reachable c ->
    forall sid sess ls,
      c !! sid = Some sess -> last_parking_search sess = Some ls ->
      (4 <= length (spots ls))%nat
      /\ Forall spot_ok (spots ls)
      /\ (forall user_message,
            exists r, handle_follow_up_question user_message sid c = Ok r).
Proof.
  intros c Hc sid sess ls Hsess Hls.
  assert (Hstored : forall sid' ls',
             last_search_of sid' c = Some ls' ->
             (4 <= length (spots ls'))%nat /\ Forall spot_ok (spots ls')).
  { intros sid' ls' H.
    apply (stored_lists (fun l => (4 <= length l)%nat /\ Forall spot_ok l))
      with (c := c) (sid := sid'); [apply final_list_ok | exact Hc | exact H]. }
  assert (Hhere : last_search_of sid c = Some ls).
  { unfold last_search_of. rewrite Hsess. exact Hls. }
  destruct (Hstored sid ls Hhere) as [Hlen Hall].
  split; [exact Hlen |]. split; [exact Hall |].
  intros user_message. apply follow_up_defined.
  intros ls' Hls'. destruct (Hstored sid ls' Hls') as [Hlen' Hall'].
  split; [| exact Hall']. destruct (spots ls'); [cbn in Hlen'; lia | discriminate].
Qed.

(** Hence a turn never raises on a reachable store. *)
Lemma turn_returns :
  forall (c : gmap string Session),
    reachable c ->
    forall w user_input sid,
      exists response, fst (process_query w user_input sid c) = Returns response.
Proof.
  intros c Hc w user_input sid. unfold process_query.
  destruct (follow_up_defined user_input sid (init_session sid c)) as [r ->].
  { intros ls Hls. rewrite last_search_init in Hls.
    destruct (stored_lists (fun l => (4 <= length l)%nat /\ Forall spot_ok l)
                final_list_ok c Hc sid ls Hls) as [Hlen Hall].
    split; [| exact Hall]. destruct (spots ls); [cbn in Hlen; lia | discriminate]. }
  destruct r as [[| c0 r0] |]; cbn [fst]; eauto.
  all: destruct (extract_location_from_query user_input) as [[| c1 r1] |];
    try (unfold general_conversation; destruct (openrouter w); cbn [fst]; eauto).
  all: destruct (geocode_location w (String c1 r1)); unfold search_turn; cbn [fst]; eauto.
Qed.

(** * Further properties of the code *)

(** ** Pricing, features and score *)

(** the hourly price in pence, by type and distance band *)
Definition price_pence (parking_type : string) (distance : Z) : Z :=
  if String.eqb parking_type "parking-garage" then (if distance <? 500 then 400 else 320)
  else if String.eqb parking_type "on-street-parking"
       then (if distance <? 500 then 300 else 240)
  else if String.eqb parking_type "ev-charging" then 280
  else (if distance <? 500 then 260 else 200).

(** The texts [_estimate_pricing] prints read back as exact amounts: the
    hourly rate is the table's price and the daily rate is seven times it,
    both with two decimals and the currency prefix; the estimate is flagged. *)
Theorem estimate_pricing_amounts :
  forall (parking_type : string) (distance : Z),
    exists hourly daily,
      get "hourly_rate" (_estimate_pricing parking_type distance)
        = Some (VStr (pound +:+ hourly))
      /\ get "daily_rate" (_estimate_pricing parking_type distance)
        = Some (VStr (pound +:+ daily))
      /\ parse_float hourly = Some (price_pence parking_type distance, 2%nat)
      /\ parse_float daily = Some (7 * price_pence parking_type distance, 2%nat)
      /\ get "estimated" (_estimate_pricing parking_type distance) = Some (VBool true).
Proof.
  intros parking_type distance. unfold _estimate_pricing, price_pence.
  destruct (String.eqb parking_type "parking-garage"),
    (String.eqb parking_type "on-street-parking"),
    (String.eqb parking_type "ev-charging"), (distance <? 500);
    eexists; eexists;
    (split; [reflexivity |]); (split; [reflexivity |]);
    (split; [vm_compute; reflexivity |]); (split; [vm_compute; reflexivity |]);
    reflexivity.
Qed.

(** [_get_features] adds "Very Close" exactly below 200 m and "Walking
    Distance" exactly from 200 m to below 500 m, never both, and gives at most
    three tags. *)
Theorem get_features_proximity :
  forall (parking_type : string) (distance : Z),
    (In "Very Close" (_get_features parking_type distance) <-> distance < 200)
    /\ (In "Walking Distance" (_get_features parking_type distance)
        <-> 200 <= distance < 500)
    /\ (length (_get_features parking_type distance) <= 3)%nat.
Proof.
  intros parking_type distance. unfold _get_features.
  destruct (String.eqb parking_type "parking-garage"),
    (String.eqb parking_type "ev-charging"),
    (String.eqb parking_type "on-street-parking");
    destruct (Z.ltb_spec distance 200), (Z.ltb_spec distance 500);
    cbn [app In length];
    intuition (try discriminate; try lia; auto 8).
Qed.

(** For a fixed type the score never rises with the distance, and it
    stays between 50 and 90: the clamp to [0,100] never acts. *)
Theorem calculate_score_monotone :
  forall (parking_type : string) (d1 d2 : Z),
    d1 <= d2 ->
    50 <= _calculate_score d2 parking_type
    /\ _calculate_score d2 parking_type <= _calculate_score d1 parking_type
    /\ _calculate_score d1 parking_type <= 90.
Proof.
  intros parking_type d1 d2 Hle. unfold _calculate_score.
  destruct (String.eqb parking_type "parking-garage"),
    (String.eqb parking_type "ev-charging");
    destruct (Z.ltb_spec d1 200), (Z.ltb_spec d1 500), (Z.ltb_spec d1 1000),
      (Z.ltb_spec d2 200), (Z.ltb_spec d2 500), (Z.ltb_spec d2 1000); lia.
Qed.

(** ** What the aggregator returns *)

Definition parking_types : list string :=
  ["parking-lot"; "parking-garage"; "on-street-parking"; "ev-charging"].

Lemma classify_types : forall s, In (classify s) parking_types.
Proof.
  intros s. unfold classify, parking_types.
  destruct (any_in _ s); [cbn; auto |].
  destruct (any_in _ s); [cbn; auto |].
  destruct (any_in _ s); cbn; auto.
Qed.

(** The duplicate key of an accepted spot is the four-decimal text of the
    coordinates its distance was measured to; a coordinate the item does not
    have counts as 0, so an accepted item without a position has the key
    "0.0000,0.0000", and two such items are duplicates of one another,
    whatever else they say. *)
Theorem accepted_spot_key :
  forall (hour : Z) (spot : RawSpot) (user_lat user_lng : float) (d : dict),
    _process_parking_spot hour spot user_lat user_lng = Some d ->
    position_key d
      = Some (format_f 4 (spot_lat spot) +:+ "," +:+ format_f 4 (spot_lng spot))
    /\ (position spot = None -> position_key d = Some "0.0000,0.0000")
    /\ (position spot = None ->
        forall (hour' : Z) (spot' : RawSpot) (lat' lng' : float) (d' : dict),
          position spot' = None ->
          _process_parking_spot hour' spot' lat' lng' = Some d' ->
          _is_duplicate d' [d] = Some true /\ _is_duplicate d [d'] = Some true).
Proof.
  intros hour spot user_lat user_lng d H.
  pose proof (process_spot_key_text hour spot user_lat user_lng d H) as Hkey.
  assert (Hzero : forall h sp la lo x,
            position sp = None -> _process_parking_spot h sp la lo = Some x ->
            position_key x = Some "0.0000,0.0000").
  { intros h sp la lo x Hnone Hx.
    rewrite (process_spot_key_text h sp la lo x Hx).
    unfold spot_lat, spot_lng. rewrite Hnone. vm_compute. reflexivity. }
  split; [exact Hkey |].
  split; [intros Hnone; apply (Hzero _ _ _ _ _ Hnone H) |].
  intros Hnone hour' spot' lat' lng' d' Hnone' H'.
  unfold _is_duplicate. cbn [key_seen].
  rewrite (Hzero _ _ _ _ _ Hnone H), (Hzero _ _ _ _ _ Hnone' H').
  split; reflexivity.
Qed.

(** Every entry of a search result has a non-empty name with a parking
    term in it, lies within 3000 m, walks in 1 to 37 minutes (a minute per
    80 m), has one of the four parking types and the score of its distance
    and type. *)
Theorem search_result_entries :
  forall (w : World) (lat0 lng0 : float) (d : dict),
    In d (search_parking w lat0 lng0) ->
    exists name dist ptype,
      get "name" d = Some (VStr name) /\ name <> ""
      /\ any_in parking_terms (lower name) = true
      /\ get "distance" d = Some (VInt dist) /\ dist <= 3000
      /\ get "walking_time" d = Some (VInt (Z.max 1 (dist / 80)))
      /\ 1 <= Z.max 1 (dist / 80) <= 37
      /\ get "parking_type" d = Some (VStr ptype) /\ In ptype parking_types
      /\ get "score" d = Some (VInt (_calculate_score dist ptype)).
Proof.
  intros w lat0 lng0 d Hd.
  apply search_from_normalizer in Hd as (r & _ & Hr).
  destruct (process_spot_fields _ _ _ _ _ Hr)
    as (t & dist & _ & Hne & _ & Hdist & Hterm & Hname & Hd1 & Hwalk & _ & Htype & Hscore).
  exists t, dist, (classify (lower t)).
  repeat split; try assumption.
  - lia.
  - assert (dist / 80 < 38) by (apply Z.div_lt_upper_bound; lia).
    lia.
  - apply classify_types.
Qed.

Lemma sorted_split :
  forall l, StronglySorted by_score_desc l ->
  forall n x y, In x (firstn n l) -> In y (skipn n l) -> by_score_desc x y.
Proof.
  intros l Hl. induction Hl as [| a l Hl IH Ha]; intros n x y Hx Hy.
  - destruct n; destruct Hx.
  - destruct n as [| n]; [destruct Hx |].
    cbn [firstn skipn] in Hx, Hy. destruct Hx as [<- | Hx].
    + rewrite List.Forall_forall in Ha. apply Ha.
      rewrite <- (firstn_skipn n l). apply in_or_app. right. exact Hy.
    + eapply IH; eassumption.
Qed.

(** The cut to ten keeps the best: no accumulated spot that is left out
    scores higher than one that is returned; the result has ten entries or
    all of them, and with at most ten accumulated spots none is lost. *)
Theorem search_keeps_best :
  forall (w : World) (lat0 lng0 : float),
    (forall kept dropped,
        In kept (search_parking w lat0 lng0) ->
        In dropped (skipn 10 (sort_by_score_desc (accumulated_spots w lat0 lng0))) ->
        score_key dropped <= score_key kept)
    /\ length (search_parking w lat0 lng0)
       = Nat.min 10 (length (accumulated_spots w lat0 lng0))
    /\ ((length (accumulated_spots w lat0 lng0) <= 10)%nat ->
        Permutation (search_parking w lat0 lng0) (accumulated_spots w lat0 lng0)).
Proof.
  intros w lat0 lng0. unfold search_parking. split; [| split].
  - intros kept dropped Hk Hd.
    apply (sorted_split _ (sort_sorted (accumulated_spots w lat0 lng0)) 10 kept dropped Hk Hd).
  - rewrite length_firstn, (Permutation_length (sort_perm _)). reflexivity.
  - intros Hlen. rewrite firstn_all2; [apply sort_perm |].
    rewrite (Permutation_length (sort_perm _)). exact Hlen.
Qed.

Lemma timed_ext :
  forall (h h' : nat -> Z) its, (forall i, h i = h' i) -> timed h its = timed h' its.
Proof.
  intros h h' its Hh. unfold timed. f_equal. apply map_ext. exact Hh.
Qed.

(** The category passes are a backup only: once the text passes have
    accumulated five spots, what the category requests would answer has no
    influence on the result. *)
Theorem category_passes_only_when_scarce :
  forall (w w' : World) (lat0 lng0 : float),
    (forall q, here_discover w (ByQuery q) = here_discover w' (ByQuery q)) ->
    (forall q i, current_hour w (ByQuery q) i = current_hour w' (ByQuery q) i) ->
    (5 <= length (text_passes w lat0 lng0))%nat ->
    search_parking w lat0 lng0 = search_parking w' lat0 lng0.
Proof.
  intros w w' lat0 lng0 Hreply Hclock Hfive.
  assert (Hpass : forall q, text_pass w q = text_pass w' q).
  { intros q. unfold text_pass. rewrite Hreply. apply timed_ext. apply Hclock. }
  assert (Htext : text_passes w lat0 lng0 = text_passes w' lat0 lng0).
  { unfold text_passes, search_queries. cbn [fold_left]. rewrite !Hpass. reflexivity. }
  unfold search_parking, accumulated_spots. rewrite <- Htext.
  destruct (Z.ltb_spec (Z.of_nat (length (text_passes w lat0 lng0))) 5); [lia |].
  reflexivity.
Qed.

(** a reply that a pass skips: the call raised, or the status is 4xx or 5xx *)
Definition failed (reply : option (HttpReply DiscoverData)) : Prop :=
  reply = None \/ exists response, reply = Some response /\ 400 <= status_code response < 600.

Lemma failed_no_items :
  forall reply, failed reply -> text_pass_items reply = [] /\ category_pass_items reply = [].
Proof.
  intros reply [-> | (response & -> & Hlo & Hhi)]; [split; reflexivity |].
  unfold text_pass_items, category_pass_items, raises_for_status.
  apply Z.leb_le in Hlo. apply Z.ltb_lt in Hhi as Hhi'. rewrite Hlo, Hhi'.
  destruct (Z.eqb_spec (status_code response) 200); [lia |]. split; reflexivity.
Qed.

(** When every one of the eight discover calls fails, no pass aborts the
    search: it returns the empty list, and the final list is exactly the mock
    data. *)
Theorem search_when_every_pass_fails :
  forall (w : World) (lat0 lng0 : float) (location_info : LocationInfo),
    (forall r, failed (here_discover w r)) ->
    search_parking w lat0 lng0 = []
    /\ backfilled w location_info (search_parking w lat0 lng0)
       = generate_mock_data w location_info.
Proof.
  intros w lat0 lng0 location_info Hfail.
  assert (Ht : forall q, text_pass w q = []).
  { intros q. unfold text_pass.
    rewrite (proj1 (failed_no_items _ (Hfail (ByQuery q)))). reflexivity. }
  assert (Hc : forall c, category_pass w c = []).
  { intros c. unfold category_pass.
    rewrite (proj2 (failed_no_items _ (Hfail (ByCategory c)))). reflexivity. }
  assert (Hs : search_parking w lat0 lng0 = []).
  { unfold search_parking, accumulated_spots, text_passes, search_queries, category_ids.
    cbn [fold_left]. rewrite !Ht. cbn [process_items length Z.of_nat Z.ltb Z.compare].
    cbn [fold_left]. rewrite !Hc. reflexivity. }
  split; [exact Hs |]. rewrite Hs. reflexivity.
Qed.

Lemma filter_none :
  forall (f : dict -> bool) l, (forall x, In x l -> f x = false) -> List.filter f l = [].
Proof.
  intros f l H. induction l as [| x l IH]; [reflexivity |].
  cbn [List.filter]. rewrite (H x (or_introl eq_refl)).
  apply IH. intros y Hy. apply H. right. exact Hy.
Qed.

Lemma first_seen_represents :
  forall l, Forall keyed l ->
  forall y, In y l -> exists z, In z (first_seen l) /\ same_key z y = true.
Proof.
  intros l Hl. induction Hl as [| s l Hs Hl IH]; intros y Hy; [destruct Hy |].
  cbn [first_seen]. destruct Hy as [<- | Hy].
  - exists s. split; [left; reflexivity | apply same_key_refl, Hs].
  - destruct (IH y Hy) as (z & Hz & Hzy).
    destruct (same_key s z) eqn:Hsz.
    + exists s. split; [left; reflexivity | eapply same_key_trans; eassumption].
    + exists z. split; [| exact Hzy]. right. apply filter_In.
      split; [exact Hz | rewrite Hsz; reflexivity].
Qed.

Lemma fresh_by_key : forall acc, by_key (fresh acc).
Proof.
  intros acc a b Hab. unfold fresh. f_equal.
  induction acc as [| x acc IH]; [reflexivity |].
  cbn [existsb]. rewrite IH. f_equal.
  pose proof (by_key_not_same x a b Hab) as H. cbn beta in H.
  destruct (same_key x a), (same_key x b); try reflexivity; discriminate.
Qed.

(** after a pass, the key of every spot it accepted is in the list *)
Lemma keys_covered :
  forall lat0 lng0 its acc y,
    Forall keyed acc -> In y (valid_spots lat0 lng0 its) ->
    fresh (process_items lat0 lng0 its acc) y = false.
Proof.
  intros lat0 lng0 its acc y Hacc Hy.
  rewrite process_items_first_seen by exact Hacc.
  unfold fresh. rewrite existsb_app. apply negb_false_iff, orb_true_iff.
  destruct (existsb (fun a => same_key a y) acc) eqn:Hin; [left; reflexivity | right].
  destruct (first_seen_represents _ (valid_spots_keyed lat0 lng0 its) y Hy)
    as (z & Hz & Hzy).
  apply existsb_exists. exists z. split; [| exact Hzy].
  apply filter_In. split; [exact Hz |].
  change (fresh acc z = true).
  rewrite (fresh_by_key acc z y Hzy). unfold fresh. rewrite Hin. reflexivity.
Qed.

(** every spot that the normalizer makes of the raw item, at any hour, has
    its key in [acc] *)
Definition seen_by (lat0 lng0 : float) (acc : list dict) (spot : RawSpot) : Prop :=
  forall h d, _process_parking_spot h spot lat0 lng0 = Some d -> fresh acc d = false.

Lemma seen_after_pass :
  forall lat0 lng0 its acc r,
    Forall keyed acc -> In r its ->
    seen_by lat0 lng0 (process_items lat0 lng0 its acc) (fst r).
Proof.
  intros lat0 lng0 its acc [r h] Hacc Hin h' x Hx. cbn [fst] in Hx.
  destruct (_process_parking_spot h r lat0 lng0) as [d |] eqn:Hd.
  - assert (Hkey : position_key d = position_key x).
    { rewrite (process_spot_key_text _ _ _ _ _ Hd), (process_spot_key_text _ _ _ _ _ Hx).
      reflexivity. }
    assert (Hk : keyed d) by (eapply process_spot_keyed; exact Hd).
    rewrite <- (fresh_by_key _ d x (same_key_eq d x Hk Hkey)).
    apply keys_covered; [exact Hacc |].
    apply (valid_spots_in lat0 lng0 its (r, h) d Hin Hd).
  - apply process_spot_rejects_iff in Hd.
    apply (process_spot_rejects_iff h') in Hd. congruence.
Qed.

Lemma seen_grows :
  forall lat0 lng0 more acc spot,
    Forall keyed acc -> seen_by lat0 lng0 acc spot ->
    seen_by lat0 lng0 (process_items lat0 lng0 more acc) spot.
Proof.
  intros lat0 lng0 more acc spot Hacc Hseen h d Hd.
  rewrite process_items_first_seen by exact Hacc.
  specialize (Hseen h d Hd). unfold fresh in *. rewrite existsb_app.
  apply negb_false_iff in Hseen. rewrite Hseen. reflexivity.
Qed.

Lemma seen_skipped :
  forall lat0 lng0 r rest acc,
    Forall keyed acc -> seen_by lat0 lng0 acc (fst r) ->
    process_items lat0 lng0 (r :: rest) acc = process_items lat0 lng0 rest acc.
Proof.
  intros lat0 lng0 [spot h] rest acc Hacc Hseen. cbn [process_items].
  destruct (_process_parking_spot h spot lat0 lng0) as [d |] eqn:Hd; [| reflexivity].
  assert (Hk : keyed d) by (eapply process_spot_keyed; exact Hd).
  rewrite (is_duplicate_keyed d acc Hk Hacc).
  specialize (Hseen h d Hd). unfold fresh in Hseen.
  apply negb_false_iff in Hseen. rewrite Hseen. reflexivity.
Qed.

(** Once a pass has gone over raw items, they add nothing any more,
    whatever the clock shows by then and whatever passes came in between: a
    later reply is processed as if the items it shares with the earlier one
    were not in it, and a reply made of such items only (any of them, in any
    order, any number of times) leaves [all_spots] as it is.  The queries may
    return overlapping replies without any spot being listed twice. *)
Theorem repeated_items_add_nothing :
  forall (lat0 lng0 : float) (its between : list (RawSpot * Z)) (all_spots : list dict),
    Forall keyed all_spots ->
    let acc := process_items lat0 lng0 between (process_items lat0 lng0 its all_spots) in
    (forall before r after,
       In (fst r) (map fst its) ->
       process_items lat0 lng0 (before ++ r :: after) acc
       = process_items lat0 lng0 (before ++ after) acc)
    /\ (forall its',
          incl (map fst its') (map fst its) ->
          process_items lat0 lng0 its' acc = acc).
Proof.
  intros lat0 lng0 its between all_spots Hall acc.
  pose proof (process_items_keyed lat0 lng0 its all_spots Hall) as Hfirst.
  assert (Hacc : Forall keyed acc) by (apply process_items_keyed; exact Hfirst).
  assert (Hseen : forall spot, In spot (map fst its) -> seen_by lat0 lng0 acc spot).
  { intros spot Hin. apply in_map_iff in Hin as (r0 & <- & Hin).
    apply seen_grows; [exact Hfirst |]. apply seen_after_pass; assumption. }
  split.
  - intros before r after Hin.
    rewrite !process_items_app by exact Hacc.
    apply seen_skipped; [apply process_items_keyed; exact Hacc |].
    apply seen_grows; [exact Hacc | apply Hseen, Hin].
  - induction its' as [| r its' IH]; intros Hincl; [reflexivity |].
    rewrite seen_skipped; [| exact Hacc | apply Hseen, Hincl; left; reflexivity].
    apply IH. intros x Hx. apply Hincl. right. exact Hx.
Qed.

(** ** Intent router *)

Definition begins_with (p bs : list ascii) : bool :=
  match drop_prefix p bs with
  | Some _ => true
  | None => false
  end.

(** the text begins, or ends, with the encoding of a white-space character *)
Definition begins_blank (s : string) : bool :=
  existsb (fun p => begins_with p (list_ascii_of_string s)) white_space_bytes.

Definition ends_blank (s : string) : bool :=
  existsb (fun p => begins_with (rev p) (rev (list_ascii_of_string s)))
          white_space_bytes.

Lemma drop_prefix_app :
  forall p bs r, drop_prefix p bs = Some r -> bs = p ++ r.
Proof.
  induction p as [| a p IH]; intros bs r H.
  - cbn in H. injection H as <-. reflexivity.
  - destruct bs as [| b bs]; [discriminate |]. cbn [drop_prefix] in H.
    destruct (Ascii.eqb_spec a b) as [<- | _]; [| discriminate].
    cbn [app]. f_equal. apply IH, H.
Qed.

Lemma drop_prefix_longer :
  forall p bs r z, drop_prefix p bs = Some r -> drop_prefix p (bs ++ z) = Some (r ++ z).
Proof.
  induction p as [| a p IH]; intros bs r z H.
  - cbn in H. injection H as <-. reflexivity.
  - destruct bs as [| b bs]; [discriminate |]. cbn [drop_prefix app] in *.
    destruct (Ascii.eqb a b); [apply IH, H | discriminate].
Qed.

Lemma drop_mark_none :
  forall marks bs,
    drop_mark marks bs = None <-> existsb (fun p => begins_with p bs) marks = false.
Proof.
  induction marks as [| p marks IH]; intros bs; [split; reflexivity |].
  cbn [drop_mark existsb]. unfold begins_with at 1.
  destruct (drop_prefix p bs); [split; discriminate | apply IH].
Qed.

Lemma drop_mark_longer :
  forall marks bs r z,
    drop_mark marks bs = Some r -> exists r', drop_mark marks (bs ++ z) = Some r'.
Proof.
  induction marks as [| p marks IH]; intros bs r z H; [discriminate |].
  cbn [drop_mark] in *.
  destruct (drop_prefix p bs) as [r0 |] eqn:Hp.
  - rewrite (drop_prefix_longer _ _ _ z Hp). eauto.
  - destruct (drop_prefix p (bs ++ z)); [eauto | eapply IH, H].
Qed.

Lemma drop_mark_shorter :
  forall marks bs r,
    Forall (fun p => p <> []) marks -> drop_mark marks bs = Some r ->
    (length r < length bs)%nat /\ exists p, bs = p ++ r.
Proof.
  intros marks bs r Hm. induction Hm as [| p marks Hp _ IH]; intros H; [discriminate |].
  cbn [drop_mark] in H. destruct (drop_prefix p bs) as [r0 |] eqn:Hd.
  - injection H as ->. apply drop_prefix_app in Hd. subst bs. split; [| eauto].
    rewrite length_app. destruct p; [contradiction | cbn; lia].
  - apply IH, H.
Qed.

Lemma drop_marks_clean :
  forall marks fuel bs,
    Forall (fun p => p <> []) marks -> (length bs <= fuel)%nat ->
    drop_mark marks (drop_marks marks fuel bs) = None.
Proof.
  intros marks fuel. induction fuel as [| fuel IH]; intros bs Hm Hlen.
  - destruct bs; [| cbn in Hlen; lia]. cbn [drop_marks].
    destruct (drop_mark marks []) as [r |] eqn:Hd; [| reflexivity].
    apply (drop_mark_shorter _ _ _ Hm) in Hd as [Hd _]. cbn in Hd. lia.
  - cbn [drop_marks]. destruct (drop_mark marks bs) as [r |] eqn:Hd; [| exact Hd].
    apply IH; [exact Hm |].
    apply (drop_mark_shorter _ _ _ Hm) in Hd as [Hd _]. lia.
Qed.

Lemma drop_marks_id :
  forall marks fuel bs, drop_mark marks bs = None -> drop_marks marks fuel bs = bs.
Proof. intros marks [| fuel] bs H; [reflexivity |]. cbn [drop_marks]. rewrite H. reflexivity. Qed.

Lemma drop_marks_suffix :
  forall marks fuel bs,
    Forall (fun p => p <> []) marks ->
    exists pre, bs = pre ++ drop_marks marks fuel bs.
Proof.
  intros marks fuel. induction fuel as [| fuel IH]; intros bs Hm; [exists []; reflexivity |].
  cbn [drop_marks]. destruct (drop_mark marks bs) as [r |] eqn:Hd; [| exists []; reflexivity].
  apply (drop_mark_shorter _ _ _ Hm) in Hd as [_ [p ->]].
  destruct (IH r Hm) as [pre Hpre]. exists (p ++ pre).
  rewrite <- app_assoc. f_equal. exact Hpre.
Qed.

Lemma white_space_marks : Forall (fun p => p <> []) white_space_bytes.
Proof. repeat constructor; discriminate. Qed.

Lemma white_space_marks_rev : Forall (fun p => p <> []) (map (@rev ascii) white_space_bytes).
Proof. repeat constructor; discriminate. Qed.

Lemma lstrip_clean : forall bs, drop_mark white_space_bytes (lstrip bs) = None.
Proof.
  intros bs. apply drop_marks_clean; [apply white_space_marks | apply Nat.le_refl].
Qed.

Lemma rstrip_clean :
  forall bs, drop_mark (map (@rev ascii) white_space_bytes) (rev (rstrip bs)) = None.
Proof.
  intros bs. unfold rstrip. rewrite rev_involutive.
  apply drop_marks_clean; [apply white_space_marks_rev |].
  rewrite length_rev. apply Nat.le_refl.
Qed.

(** stripping at the end leaves the beginning as it was *)
Lemma rstrip_keeps_start :
  forall bs,
    drop_mark white_space_bytes bs = None ->
    drop_mark white_space_bytes (rstrip bs) = None.
Proof.
  intros bs H. unfold rstrip.
  destruct (drop_marks_suffix (map (@rev ascii) white_space_bytes) (length bs) (rev bs)
              white_space_marks_rev) as [pre Hpre].
  set (kept := drop_marks _ _ _) in *.
  assert (Hbs : bs = rev kept ++ rev pre).
  { rewrite <- rev_app_distr, <- Hpre, rev_involutive. reflexivity. }
  destruct (drop_mark white_space_bytes (rev kept)) as [r |] eqn:Hd; [| reflexivity].
  destruct (drop_mark_longer _ _ _ (rev pre) Hd) as [r' Hr'].
  rewrite <- Hbs in Hr'. congruence.
Qed.

Lemma existsb_rev_marks :
  forall (marks : list (list ascii)) bs,
    existsb (fun p => begins_with p bs) (map (@rev ascii) marks)
    = existsb (fun p => begins_with (rev p) bs) marks.
Proof.
  intros marks bs. induction marks as [| p marks IH]; [reflexivity |].
  cbn [map existsb]. rewrite IH. reflexivity.
Qed.

(** the result of [strip] has no white space at either end, and stripping
    it again changes nothing *)
Lemma strip_clean :
  forall s,
    begins_blank (strip s) = false
    /\ ends_blank (strip s) = false
    /\ strip (strip s) = strip s.
Proof.
  intros s. unfold begins_blank, ends_blank, strip.
  rewrite !list_ascii_of_string_of_list_ascii.
  set (bs := list_ascii_of_string s).
  assert (Hstart : drop_mark white_space_bytes (rstrip (lstrip bs)) = None)
    by apply rstrip_keeps_start, lstrip_clean.
  pose proof (rstrip_clean (lstrip bs)) as Hend.
  split; [apply drop_mark_none, Hstart |].
  split; [rewrite <- existsb_rev_marks; apply drop_mark_none, Hend |].
  f_equal. unfold lstrip at 1. rewrite (drop_marks_id _ _ _ Hstart).
  unfold rstrip at 1. rewrite (drop_marks_id _ _ _ Hend). apply rev_involutive.
Qed.

Lemma first_location_clean :
  forall ps user_input location,
    first_location ps user_input = Some location ->
    in_list (lower location) stopwords = false
    /\ exists pattern group1,
         In pattern ps /\ re_search pattern user_input = Some group1
         /\ location = strip group1.
Proof.
  induction ps as [| p ps IH]; intros user_input location H; [discriminate |].
  cbn [first_location] in H.
  destruct (re_search p user_input) as [g |] eqn:Hg.
  - destruct (in_list (lower (strip g)) stopwords) eqn:Hstop; cbn [negb] in H.
    + destruct (IH _ _ H) as (Hs & p' & g' & Hp & Hg' & Hl).
      split; [exact Hs |]. exists p', g'. split; [right; exact Hp | split; assumption].
    + injection H as <-. split; [exact Hstop |].
      exists p, g. split; [left; reflexivity | split; [exact Hg | reflexivity]].
  - destruct (IH _ _ H) as (Hs & p' & g' & Hp & Hg' & Hl).
    split; [exact Hs |]. exists p', g'. split; [right; exact Hp | split; assumption].
Qed.

(** A location phrase that [extract_location_from_query] returns is the
    stripped first group of a match of one of the eight patterns; it neither
    begins nor ends with a white-space character (any of those [str.strip]
    removes, the non-ASCII ones included), stripping it again gives it back,
    and it is not a stopword in any letter case. *)
Theorem extracted_location_clean :
  forall (user_input location : string),
    extract_location_from_query user_input = Some location ->
    begins_blank location = false
    /\ ends_blank location = false
    /\ strip location = location
    /\ in_list (lower location) stopwords = false
    /\ exists pattern group1,
         In pattern patterns /\ re_search pattern user_input = Some group1
         /\ location = strip group1.
Proof.
  intros user_input location H. unfold extract_location_from_query in H.
  destruct (first_location_clean _ _ _ H) as (Hs & p & g & Hp & Hg & Hl).
  destruct (strip_clean g) as (Hb & He & Hi). rewrite <- Hl in Hb, He, Hi.
  split; [exact Hb |]. split; [exact He |]. split; [exact Hi |].
  split; [exact Hs |]. exists p, g. split; [exact Hp | split; assumption].
Qed.

(** ** Follow-up resolver *)

(** When the follow-up resolver answers, the turn is over before any
    location is extracted or any outside call is made: the outcome is the
    same in every world, the answer is returned and recorded, and no
    session's last search changes. *)
Theorem follow_up_short_circuit :
  forall (w w' : World) (user_input sid : string) (c : gmap string Session)
         (answer : string),
    handle_follow_up_question user_input sid (init_session sid c) = Ok (Some answer) ->
    process_query w user_input sid c = process_query w' user_input sid c
    /\ fst (process_query w user_input sid c) = Returns answer
    /\ history_of sid (snd (process_query w user_input sid c))
       = history_of sid c ++ [{| user := user_input; assistant := answer |}]
    /\ (forall sid', last_search_of sid' (snd (process_query w user_input sid c))
                     = last_search_of sid' c).
Proof.
  intros w w' user_input sid c answer H.
  destruct (follow_up_text_nonempty _ _ _ _ H) as (c0 & r0 & ->).
  unfold process_query. rewrite H. cbn [fst snd].
  split; [reflexivity |]. split; [reflexivity |]. split.
  - rewrite history_append by apply init_session_present. rewrite history_init.
    reflexivity.
  - intros sid'. rewrite last_search_append. apply last_search_init.
Qed.







(** ** Response composer *)

Definition is_str (v : value) : Prop := exists s, v = VStr s.

(** what the composer's texts read of a spot *)
Definition display_ok (d : dict) : Prop :=
  (exists n, get "name" d = Some (VStr n))
  /\ (exists a, get "address" d = Some (VStr a))
  /\ (exists z, get "walking_time" d = Some (VInt z))
  /\ (exists pr s, get "pricing" d = Some (VDict pr)
                   /\ get "hourly_rate" pr = Some (VStr s))
  /\ (exists a, get "availability" d = Some (VStr a))
  /\ (exists l, get "features" d = Some (VList l) /\ Forall is_str l).

Lemma strs_defined :
  forall l, Forall is_str l ->
  forall n, exists parts,
    map_result (fun v => match v with VStr s => Ok s | _ => Raise end) (firstn n l)
    = Ok parts.
Proof.
  intros l Hl. induction Hl as [| v l [s ->] _ IH]; intros [| n]; cbn [firstn map_result];
    try (eexists; reflexivity).
  destruct (IH n) as (parts & ->). cbn [bind]. eexists; reflexivity.
Qed.

Lemma features_text_defined :
  forall n d, display_ok d -> exists r, features_text n d = Ok r.
Proof.
  intros n d (_ & _ & _ & _ & _ & l & Hl & Hstr). unfold features_text. rewrite Hl.
  destruct l as [| v l]; [eexists; reflexivity |].
  destruct (strs_defined _ Hstr n) as (parts & ->). cbn [bind]. eexists; reflexivity.
Qed.

Lemma context_entry_defined :
  forall d, display_ok d -> forall i, exists s, context_entry i d = Ok s.
Proof.
  intros d Hd i. destruct (features_text_defined 3 d Hd) as (f & Hf).
  destruct Hd as ((n & Hn) & (a & Ha) & (z & Hz) & (pr & s & Hpr & Hs) & (av & Hav) & _).
  unfold context_entry, interpolate_rate, interpolate, subscript.
  rewrite Hz, Hn, Ha, Hpr, Hav, Hf. cbn [bind py_str]. rewrite Hs. cbn [bind py_str].
  eexists; reflexivity.
Qed.

Lemma fallback_entry_defined :
  forall d, display_ok d -> forall i, exists s, fallback_entry i d = Ok s.
Proof.
  intros d Hd i. destruct (features_text_defined 2 d Hd) as (f & Hf).
  destruct Hd as ((n & Hn) & (a & Ha) & (z & Hz) & (pr & s & Hpr & Hs) & _).
  unfold fallback_entry, interpolate_rate, interpolate, subscript.
  rewrite Hz, Hn, Ha, Hpr, Hf. cbn [bind py_str]. rewrite Hs. cbn [bind py_str].
  eexists; reflexivity.
Qed.

Lemma enumerate_defined :
  forall (f : Z -> dict -> result string) l,
    Forall (fun d => forall i, exists s, f i d = Ok s) l ->
    forall i, exists ss, enumerate_from f i l = Ok ss /\ length ss = length l.
Proof.
  intros f l Hl. induction Hl as [| d l Hd _ IH]; intros i.
  - exists []. split; reflexivity.
  - cbn [enumerate_from]. destruct (Hd i) as (s0 & ->).
    destruct (IH (i + 1)) as (ss & -> & Hlen). cbn [bind].
    exists (s0 :: ss). split; [reflexivity | cbn [length]; rewrite Hlen; reflexivity].
Qed.

Lemma process_spot_display :
  forall hour spot user_lat user_lng d,
    _process_parking_spot hour spot user_lat user_lng = Some d -> display_ok d.
Proof.
  intros hour spot user_lat user_lng d H.
  unfold _process_parking_spot in H.
  destruct (_calculate_distance _ _ _ _) as [dist |]; [| discriminate].
  destruct (title spot) as [t |]; [| discriminate].
  destruct ((3000 <? _) || String.eqb t ""); [discriminate |].
  destruct (negb _); [discriminate |].
  injection H as <-.
  repeat (split; [eexists; reflexivity |]).
  split; [do 2 eexists; split; reflexivity |].
  split; [eexists; reflexivity |].
  eexists. split; [reflexivity |].
  induction (_get_features _ _) as [| f fs IH]; constructor; [eexists; reflexivity | exact IH].
Qed.

Lemma mock_data_display :
  forall w location_info, Forall display_ok (generate_mock_data w location_info).
Proof.
  intros w location_info.
  repeat constructor; try (eexists; reflexivity);
    try (do 2 eexists; split; reflexivity);
    (eexists; split; [reflexivity | repeat constructor; eexists; reflexivity]).
Qed.

Lemma final_list_display :
  forall w location_info, Forall display_ok (final_list w location_info).
Proof.
  intros w location_info. unfold final_list. rewrite backfilled_eq.
  set (real := search_parking w (loc_lat location_info) (loc_lng location_info)).
  assert (Hreal : Forall display_ok real).
  { rewrite List.Forall_forall. intros d Hd.
    apply search_from_normalizer in Hd as (r & _ & Hr).
    eapply process_spot_display. exact Hr. }
  destruct (Z.of_nat (length real) <? 5); [| exact Hreal].
  apply List.Forall_app. split; [exact Hreal | apply mock_data_display].
Qed.

(** On the final list of a search the composer's own text building never
    fails: the reply is the model's content when there is one, the summary of
    the first five entries when the model gives no choice, and the short
    notice with the number of options only when the call itself fails. *)
Theorem composer_on_final_list :
  forall (w : World) (location_info : LocationInfo),
    let parking_data := final_list w location_info in
    exists entries,
      enumerate_from fallback_entry 1 (firstn 5 parking_data) = Ok entries
      /\ length entries = Nat.min 5 (length parking_data)
      /\ generate_ai_response w parking_data =
         match openrouter w with
         | LlmContent content => content
         | LlmNoChoices =>
             "I found " +:+ count_text parking_data
             +:+ " great parking options for you!" +:+ nl +:+ nl +:+ join "" entries
         | LlmError =>
             "I found " +:+ count_text parking_data
             +:+ " parking options for you! The search worked but I'm having response issues. Try asking 'which is best?' for recommendations."
         end.
Proof.
  intros w location_info parking_data.
  pose proof (final_list_display w location_info) as Hall. fold parking_data in Hall.
  pose proof (proj1 (final_list_ok w location_info)) as Hlen. fold parking_data in Hlen.
  destruct (enumerate_defined context_entry parking_data) with (i := 1) as (cs & Hcs & _).
  { eapply List.Forall_impl; [| exact Hall]. apply context_entry_defined. }
  destruct (enumerate_defined fallback_entry (firstn 5 parking_data)) with (i := 1)
    as (entries & Hentries & Hcount).
  { eapply List.Forall_impl; [apply fallback_entry_defined |].
    rewrite List.Forall_forall in *. intros d Hd. apply Hall.
    rewrite <- (firstn_skipn 5 parking_data). apply in_or_app. left. exact Hd. }
  exists entries. split; [exact Hentries |].
  split; [rewrite Hcount; apply length_firstn |].
  unfold generate_ai_response. rewrite Hcs.
  destruct parking_data as [| x xs]; [cbn in Hlen; lia |].
  rewrite Hentries. destruct (openrouter w); reflexivity.
Qed.

(** ** Sessions *)

Lemma lookup_other_init :
  forall sid sid' (c : gmap string Session),
    sid' <> sid -> init_session sid c !! sid' = c !! sid'.
Proof.
  intros sid sid' c Hne. unfold init_session.
  destruct (c !! sid); [reflexivity |]. apply lookup_insert_ne. congruence.
Qed.

Lemma lookup_other_append :
  forall sid sid' t (c : gmap string Session),
    sid' <> sid -> append_history sid t c !! sid' = c !! sid'.
Proof. intros. unfold append_history. apply lookup_alter_ne. congruence. Qed.

Lemma lookup_other_store :
  forall sid sid' ls (c : gmap string Session),
    sid' <> sid -> store_search sid ls c !! sid' = c !! sid'.
Proof. intros. unfold store_search. apply lookup_alter_ne. congruence. Qed.

Lemma append_history_present :
  forall sid t (c : gmap string Session),
    is_Some (c !! sid) -> is_Some (append_history sid t c !! sid).
Proof.
  intros sid t c [s Hs]. unfold append_history. rewrite lookup_alter_eq, Hs. cbn. eauto.
Qed.

(** A turn touches the session it is addressed to and no other: every
    other session is as before, the addressed session exists afterwards, and
    its history is the old one with at most one pair added at the end. *)
Theorem turn_touches_one_session :
  forall (w : World) (user_input sid : string) (c : gmap string Session),
    (forall sid', sid' = sid \/ snd (process_query w user_input sid c) !! sid' = c !! sid')
    /\ is_Some (snd (process_query w user_input sid c) !! sid)
    /\ exists added,
         history_of sid (snd (process_query w user_input sid c))
         = history_of sid c ++ added
         /\ (length added <= 1)%nat.
Proof.
  intros w user_input sid c.
  pose proof (init_session_present sid c) as Hpresent.
  pose proof (history_init sid sid c) as Hinit.
  assert (Hsame : exists added, history_of sid (init_session sid c)
                                = history_of sid c ++ added /\ (length added <= 1)%nat).
  { exists []. rewrite app_nil_r. split; [exact Hinit | cbn; lia]. }
  assert (Hone : forall t, exists added,
             history_of sid (append_history sid t (init_session sid c))
             = history_of sid c ++ added /\ (length added <= 1)%nat).
  { intros t. exists [t]. rewrite history_append by exact Hpresent. rewrite Hinit.
    split; [reflexivity | cbn; lia]. }
  assert (Hother : forall sid', sid' = sid \/ init_session sid c !! sid' = c !! sid').
  { intros sid'. destruct (decide (sid' = sid)) as [-> | Hne]; [left; reflexivity |].
    right. apply lookup_other_init, Hne. }
  assert (Hother1 : forall t sid',
             sid' = sid \/ append_history sid t (init_session sid c) !! sid' = c !! sid').
  { intros t sid'. destruct (decide (sid' = sid)) as [-> | Hne]; [left; reflexivity |].
    right. rewrite lookup_other_append by exact Hne. apply lookup_other_init, Hne. }
  unfold process_query.
  destruct (handle_follow_up_question user_input sid (init_session sid c))
    as [[[| c0 r0] |] |]; cbn [snd];
    try (split; [apply Hother1 | split; [apply append_history_present, Hpresent | apply Hone]]);
    try (split; [exact Hother | split; [exact Hpresent | exact Hsame]]).
  all: destruct (extract_location_from_query user_input) as [[| c1 r1] |];
    try (unfold general_conversation; destruct (openrouter w); cbn [snd];
         first [ split; [exact Hother | split; [exact Hpresent | exact Hsame]]
               | split; [apply Hother1
                        | split; [apply append_history_present, Hpresent | apply Hone]] ]).
  all: destruct (geocode_location w (String c1 r1)) as [location_info |]; cbn [snd];
    try (split; [apply Hother1 | split; [apply append_history_present, Hpresent | apply Hone]]).
  all: unfold search_turn; cbn [snd]; split; [| split].
  all: try (apply append_history_present, store_search_present, Hpresent).
  all: try (intros sid'; destruct (decide (sid' = sid)) as [-> | Hne]; [left; reflexivity |];
            right; rewrite lookup_other_append, lookup_other_store by exact Hne;
            apply lookup_other_init, Hne).
  all: eexists; rewrite history_append by (apply store_search_present, Hpresent);
       rewrite history_store, Hinit; split; [reflexivity | cbn; lia].
Qed.

(** A search turn: when the follow-up resolver does not answer, a phrase
    is extracted and the geocoder resolves it, the session's last search is
    replaced by the final list of this search with the resolved city, the
    reply is the composer's text for that list, and the turn is recorded. *)
Theorem search_turn_result :
  forall (w : World) (user_input sid : string) (c : gmap string Session)
         (location : string) (location_info : LocationInfo),
    handle_follow_up_question user_input sid (init_session sid c) = Ok None ->
    extract_location_from_query user_input = Some location ->
    location <> "" ->
    geocode_location w location = Some location_info ->
    fst (process_query w user_input sid c)
      = Returns (generate_ai_response w (final_list w location_info))
    /\ last_search_of sid (snd (process_query w user_input sid c))
       = Some {| spots := final_list w location_info;
                 location := loc_city location_info |}
    /\ history_of sid (snd (process_query w user_input sid c))
       = history_of sid c
         ++ [{| user := user_input;
                assistant := generate_ai_response w (final_list w location_info) |}].
Proof.
  intros w user_input sid c location location_info Hfollow Hextract Hne Hgeo.
  pose proof (init_session_present sid c) as Hpresent.
  unfold process_query. rewrite Hfollow, Hextract.
  destruct location as [| c1 r1]; [contradiction |].
  rewrite Hgeo. unfold search_turn. cbn [fst snd].
  split; [reflexivity |]. split.
  - rewrite last_search_append, (last_search_store sid sid _ _ Hpresent).
    destruct (decide (sid = sid)); [reflexivity | contradiction].
  - rewrite history_append by (apply store_search_present, Hpresent).
    rewrite history_store, history_init. reflexivity.
Qed.

(** ** The chat route *)

Lemma follow_up_defined_reachable :
  forall (c : gmap string Session),
    reachable c ->
    forall user_input sid,
      exists r, handle_follow_up_question user_input sid (init_session sid c) = Ok r.
Proof.
  intros c Hc user_input sid. apply follow_up_defined.
  intros ls Hls. rewrite last_search_init in Hls.
  destruct (stored_lists (fun l => (4 <= length l)%nat /\ Forall spot_ok l)
              final_list_ok c Hc sid ls Hls) as [Hlen Hall].
  split; [| exact Hall]. destruct (spots ls); [cbn in Hlen; lia | discriminate].
Qed.

Lemma process_query_outcome :
  forall w user_input sid (c : gmap string Session) r,
    handle_follow_up_question user_input sid (init_session sid c) = Ok r ->
    exists response, fst (process_query w user_input sid c) = Returns response.
Proof.
  intros w user_input sid c r H. unfold process_query. rewrite H.
  destruct r as [[| c0 r0] |]; cbn [fst]; eauto.
  all: destruct (extract_location_from_query user_input) as [[| c1 r1] |];
    try (unfold general_conversation; destruct (openrouter w); cbn [fst]; eauto).
  all: destruct (geocode_location w (String c1 r1)); unfold search_turn; cbn [fst]; eauto.
Qed.

(** [v] is a JSON string *)
Definition is_text (v : value) : bool :=
  match v with
  | VStr _ => true
  | _ => false
  end.

(** [v] cannot be hashed: a JSON array or object *)
Definition unhashable (v : value) : bool :=
  match v with
  | VList _ | VDict _ => true
  | _ => false
  end.

(** The route on a store reached through turns.  A request without a JSON
    object in its body is answered 500, and so is one whose message is not a
    string; one whose message is missing or blank after [strip] is answered
    400; one with a message and a session id that cannot be hashed is answered
    500; none of these touches the store.  A request with a message and a
    session id that is a string, or with none (then ["web_session"] is used),
    is answered 200 with the response of [process_query] for the stripped
    message and with the session id: it is never answered 500, and the store
    it leaves is again one reached through turns. *)
Theorem chat_replies :
  forall (c : gmap string Session),
    reachable c ->
    forall (w : World) (data : ChatRequest),
      chat w None c = Some (Chat500, c)
      /\ (forall v, req_message data = Some v -> is_text v = false ->
                    chat w (Some data) c = Some (Chat500, c))
      /\ (forall message,
            default (VStr "") (req_message data) = VStr message ->
            (strip message = "" -> chat w (Some data) c = Some (Chat400, c))
            /\ (strip message <> "" ->
                forall v, req_session_id data = Some v -> unhashable v = true ->
                          chat w (Some data) c = Some (Chat500, c))
            /\ (strip message <> "" ->
                forall sid,
                  default (VStr "web_session") (req_session_id data) = VStr sid ->
                  exists response c',
                    process_query w (strip message) sid c = (Returns response, c')
                    /\ chat w (Some data) c = Some (Chat200 response sid, c')
                    /\ reachable c')).
Proof.
  intros c Hc w data.
  split; [reflexivity |].
  split.
  { intros v Hv Htext. unfold chat. rewrite Hv. cbn [from_option id].
    destruct v; try reflexivity. discriminate. }
  intros message Hmessage. unfold chat. rewrite Hmessage.
  destruct (String.eqb_spec (strip message) "") as [Hblank | Hmsg].
  { split; [reflexivity |]. split; intros Hne; contradiction. }
  split; [intros Hblank; contradiction |].
  split.
  { intros _ v Hv Hhash. rewrite Hv. cbn [from_option id].
    destruct v; try discriminate; reflexivity. }
  intros _ sid Hsid. rewrite Hsid.
  destruct (follow_up_defined_reachable c Hc (strip message) sid) as (r & Hr).
  destruct (process_query_outcome w (strip message) sid c r Hr) as (response & Hout).
  pose proof (reachable_turn w (strip message) sid c Hc) as Hnext.
  destruct (process_query w (strip message) sid c) as [out c'] eqn:Hpq.
  cbn [fst snd] in Hout, Hnext. subst out.
  exists response, c'. split; [reflexivity |]. split; [reflexivity | exact Hnext].
Qed.

End Parksy.

(** * Worked inputs

    Concrete worlds on which the definitions are evaluated.  The two
    parameters are given the values the examples need: the distances that the
    haversine computation of the code yields between the points used below,
    and the groups [re.search] returns for the patterns on the messages used
    below. *)

(** one computed distance: from a point to a point, in metres *)
Record Leg := {
  from_lat : float; from_lng : float;
  to_lat : float; to_lng : float;
  metres : Z
}.

(** [_calculate_distance] between the points of the worlds below, as
    binary64 arithmetic and the truncation by [int] give it (the products
    [c * r] are 5.2, 7.2, 1.3, 111.2, 222.4, 333.6, 444.8, 1111.9, 400.3, 3500.4
    and 5726550.8) *)
Definition legs : list Leg :=
  [ {| from_lat := 51.5; from_lng := -0.125;
       to_lat := 51.50004; to_lng := -0.12504; metres := 5 |};
    {| from_lat := 51.5; from_lng := -0.125;
       to_lat := 51.50006; to_lng := -0.12496; metres := 7 |};
    {| from_lat := 51.5; from_lng := -0.125;
       to_lat := 51.50001; to_lng := -0.12499; metres := 1 |};
    {| from_lat := 51.5; from_lng := -0.125;
       to_lat := 51.501; to_lng := -0.125; metres := 111 |};
    {| from_lat := 51.5; from_lng := -0.125;
       to_lat := 51.502; to_lng := -0.125; metres := 222 |};
    {| from_lat := 51.5; from_lng := -0.125;
       to_lat := 51.503; to_lng := -0.125; metres := 333 |};
    {| from_lat := 51.5; from_lng := -0.125;
       to_lat := 51.504; to_lng := -0.125; metres := 444 |};
    {| from_lat := 51.5; from_lng := -0.125;
       to_lat := 51.51; to_lng := -0.125; metres := 1111 |};
    {| from_lat := 51.5; from_lng := -0.125;
       to_lat := 51.5036; to_lng := -0.125; metres := 400 |};
    {| from_lat := 51.5; from_lng := -0.125;
       to_lat := 51.53148; to_lng := -0.125; metres := 3500 |};
    {| from_lat := 51.5; from_lng := -0.125;
       to_lat := 0; to_lng := 0; metres := 5726550 |} ].

Definition is_finite (x : float) : bool :=
  negb (PrimFloat.is_nan x) && negb (PrimFloat.is_infinity x).

Definition same_leg (lat1 lng1 lat2 lng2 : float) (l : Leg) : bool :=
  PrimFloat.eqb lat1 (from_lat l) && PrimFloat.eqb lng1 (from_lng l)
  && PrimFloat.eqb lat2 (to_lat l) && PrimFloat.eqb lng2 (to_lng l).

(** The distance parameter of the worked inputs.  On a NaN or an infinity
    the computation of the code raises ([math.sin] on an infinity, [int] on
    the NaN that a NaN coordinate leads to); a point is at 0 m from itself;
    the other pairs are looked up.  A pair that is not listed is not used
    below; it is answered like a failed computation. *)
Definition measured_distance (lat1 lng1 lat2 lng2 : float) : option Z :=
  if negb (is_finite lat1 && is_finite lng1 && is_finite lat2 && is_finite lng2)
  then None
  else if PrimFloat.eqb lat1 lat2 && PrimFloat.eqb lng1 lng2 then Some 0
  else option_map metres (find (same_leg lat1 lng1 lat2 lng2) legs).

(** a no-break space, U+00A0 *)
Definition nbsp : string := bytes [194; 160]%N.

(** [str.lower] beyond ASCII: the Kelvin sign U+212A becomes "k", the
    dotted capital I U+0130 becomes "i" and a combining dot, and a capital
    sigma at the end of a word becomes the final sigma. *)
Example lower_kelvin_sign :
  lower ("PAR" +:+ bytes [226; 132; 170]%N +:+ " & RIDE") = "park & ride".
Proof. vm_compute. reflexivity. Qed.

Example lower_dotted_capital_i :
  lower ("MULT" +:+ bytes [196; 176]%N) = "multi" +:+ bytes [204; 135]%N.
Proof. vm_compute. reflexivity. Qed.

Example lower_final_sigma :
  lower (bytes [206; 159; 206; 148; 206; 159; 206; 163; 32;
                206; 145; 206; 152; 206; 151; 206; 157; 206; 145; 206; 163]%N)
  = bytes [206; 191; 206; 180; 206; 191; 207; 130; 32;
           206; 177; 206; 184; 206; 183; 206; 189; 206; 177; 207; 130]%N.
Proof. vm_compute. reflexivity. Qed.

(** [str.strip] removes a no-break space, an em space U+2003 and a line
    feed as it removes a blank. *)
Example strip_unicode_white_space :
  strip (nbsp +:+ " Soho" +:+ bytes [226; 128; 131; 10]%N) = "Soho".
Proof. vm_compute. reflexivity. Qed.

(** [f"{n:.4f}"] of an integer goes through the float: [2^53 + 1] prints as
    [2^53]. *)
Example format_4f_large_int :
  format_4f (VInt 9007199254740993) = Some "9007199254740992.0000".
Proof. vm_compute. reflexivity. Qed.

(** The first and the third pattern match "parking near X" with group 1
    equal to X, the white space behind X included; no pattern matches
    "hello" or "which is best?". *)
Definition re_search_table (pattern user_input : string) : option string :=
  let near := in_list pattern [nth 0 patterns ""; nth 2 patterns ""] in
  if near && String.eqb user_input "parking near Zzyzxville" then Some "Zzyzxville"
  else if near && String.eqb user_input "parking near Trafalgar Square"
       then Some "Trafalgar Square"
  else if near && String.eqb user_input ("parking near Soho" +:+ nbsp)
       then Some ("Soho" +:+ nbsp)
  else None.

Definition trafalgar : LocationInfo :=
  {| loc_lat := 51.5; loc_lng := (-0.125);
     loc_address := "Trafalgar Square, London";
     loc_city := "London"; loc_district := "" |}.

(** the geocoder knows Trafalgar Square and nothing else *)
Definition geocoder (q : string) : option (HttpReply GeoData) :=
  if String.eqb q "Trafalgar Square" then
    Some {| status_code := 200;
            json := Some {| geo_items :=
              Some [ {| geo_lat := Some 51.5%float; geo_lng := Some (-0.125)%float;
                        geo_label := Some "Trafalgar Square, London";
                        geo_city := Some "London"; geo_district := None |} ] |} |}
  else Some {| status_code := 200; json := Some {| geo_items := Some [] |} |}.

Definition raw_spot (t : string) (la lo : float) : RawSpot :=
  {| title := Some t;
     position := Some {| lat := Some la; lng := Some lo |};
     address := None; contacts := None |}.

(** every discover call fails; the language model is down *)
Definition provider_down : World :=
  {| here_geocode := geocoder;
     here_discover := fun _ => None;
     openrouter := LlmError;
     randint := fun _ a _ => a;
     current_hour := fun _ _ => 12 |}.

(** the query "parking" finds one car park, at the very point searched
    from; every other call fails *)
Definition one_car_park : World :=
  {| here_geocode := geocoder;
     here_discover := fun r =>
       match r with
       | ByQuery "parking" =>
           Some {| status_code := 200;
                   json := Some {| items := Some [raw_spot "Car Park" 51.5 (-0.125)] |} |}
       | _ => None
       end;
     openrouter := LlmError;
     randint := fun _ a _ => a;
     current_hour := fun _ _ => 12 |}.



Definition flagged_synthetic (d : dict) : bool :=
  match get "isSynthetic" d with
  | Some (VBool true) => true
  | _ => false
  end.

Fixpoint descending (l : list Z) : bool :=
  match l with
  | a :: (b :: _) as rest => (b <=? a) && descending rest
  | _ => true
  end.

Lemma sorted_descending :
  forall l, StronglySorted by_score_desc l -> descending (map score_key l) = true.
Proof.
  intros l H. induction H as [| a l Hl IH Ha]; [reflexivity |].
  destruct l as [| b l]; [reflexivity |].
  cbn [map descending] in *. rewrite IH, andb_true_r.
  apply List.Forall_inv in Ha. apply Z.leb_le. exact Ha.
Qed.



(** the store after one search turn in [one_car_park] *)
Definition after_search : gmap string Session :=
  snd (process_query measured_distance re_search_table one_car_park
         "parking near Trafalgar Square" "web_session" ∅).

Lemma after_search_reachable : reachable measured_distance re_search_table after_search.
Proof. apply reachable_turn, reachable_empty. Qed.

Lemma after_search_stored :
  last_search_of "web_session" after_search =
  Some {| spots := final_list measured_distance one_car_park trafalgar;
          location := "London" |}.
Proof. vm_compute. reflexivity. Qed.

(** C1, counterexample: one real car park (score 75) is found; the final
    list that the session stores has it first and the synthetic garage of
    score 85 behind it, and the synthetic entries themselves run 85, 70, 75,
    72: the list is not in decreasing order of score. *)
Lemma backfill_breaks_score_order :
  last_search_of "web_session" after_search =
    Some {| spots := final_list measured_distance one_car_park trafalgar;
            location := "London" |}
  /\ map score_key (final_list measured_distance one_car_park trafalgar)
     = [75; 85; 70; 75; 72]
  /\ map (has_key "position") (final_list measured_distance one_car_park trafalgar)
     = [true; false; false; false; false]
  /\ ~ StronglySorted by_score_desc (final_list measured_distance one_car_park trafalgar).
Proof.
  split; [exact after_search_stored |].
  split; [vm_compute; reflexivity |].
  split; [vm_compute; reflexivity |].
  intros H. apply sorted_descending in H. vm_compute in H. discriminate.
Qed.

(** C2, counterexample: no real candidate is found (fewer than five), the
    final list is the four synthetic entries, and none of them has
    ['isSynthetic'] set. *)
Lemma backfill_without_flag :
  length (search_parking measured_distance provider_down 51.5 (-0.125)) = 0%nat
  /\ length (final_list measured_distance provider_down trafalgar) = 4%nat
  /\ existsb flagged_synthetic (final_list measured_distance provider_down trafalgar)
     = false
  /\ existsb (has_key "isSynthetic") (final_list measured_distance provider_down trafalgar)
     = false.
Proof. repeat split; vm_compute; reflexivity. Qed.

(** C6, counterexample: hour 18 is outside [8,18), yet a parking lot is
    "Good" and on-street parking "Limited" at that hour, not "Excellent". *)
Lemma availability_at_hour_18 :
  ~ (8 <= 18 < 18)
  /\ _estimate_availability 18 "parking-lot" = "Good"
  /\ _estimate_availability 18 "on-street-parking" = "Limited"
  /\ _estimate_availability 18 "parking-lot" <> "Excellent".
Proof.
  split; [lia |]. split; [reflexivity |]. split; [reflexivity |]. discriminate.
Qed.

(** C6, witness: at hour 18 on-street parking is "Limited". *)
Lemma estimate_availability_witness :
  8 <= 18 <= 18 /\ _estimate_availability 18 "on-street-parking" = "Limited".
Proof.
  split; [lia |].
  apply (proj1 (estimate_availability_cases "on-street-parking" 18)); [lia | reflexivity].
Defined.




(** C3, witness: the list stored by the search turn above. *)
Lemma result_length_bound_witness :
  exists ls, last_search_of "web_session" after_search = Some ls
             /\ (length (spots ls) <= 10)%nat.
Proof.
  assert (H : exists sess ls,
             after_search !! "web_session" = Some sess
             /\ last_parking_search sess = Some ls).
  { vm_compute. do 2 eexists. split; reflexivity. }
  destruct H as (sess & ls & Hsess & Hls).
  exists ls. split.
  - unfold last_search_of. rewrite Hsess. exact Hls.
  - exact (proj2 (result_length_bound measured_distance re_search_table)
             after_search after_search_reachable "web_session" sess ls Hsess Hls).
Defined.

(** C10, witness: on the store above, "which is best?" is answered. *)
Lemma stored_search_supports_follow_up_witness :
  exists ls, last_search_of "web_session" after_search = Some ls
             /\ (4 <= length (spots ls))%nat
             /\ exists r, handle_follow_up_question "which is best?" "web_session"
                            after_search = Ok r.
Proof.
  assert (H : exists sess ls,
             after_search !! "web_session" = Some sess
             /\ last_parking_search sess = Some ls).
  { vm_compute. do 2 eexists. split; reflexivity. }
  destruct H as (sess & ls & Hsess & Hls).
  destruct (stored_search_supports_follow_up measured_distance re_search_table
              after_search after_search_reachable "web_session" sess ls Hsess Hls)
    as (Hlen & _ & Hfollow).
  exists ls. split.
  - unfold last_search_of. rewrite Hsess. exact Hls.
  - split; [exact Hlen | apply Hfollow].
Defined.

(** C8, witness: "Zzyzxville" is extracted and the geocoder has no item
    for it; the clarifying question quotes it. *)
Lemma location_not_found_witness :
  fst (process_query measured_distance re_search_table provider_down
         "parking near Zzyzxville" "web_session" ∅)
    = Returns "Hmm, I'm having trouble finding 'Zzyzxville'. Could you be a bit more specific? Maybe include a street address or a well-known landmark?"
  /\ history_of "web_session"
       (snd (process_query measured_distance re_search_table provider_down
               "parking near Zzyzxville" "web_session" ∅))
     = [{| user := "parking near Zzyzxville";
           assistant := "Hmm, I'm having trouble finding 'Zzyzxville'. Could you be a bit more specific? Maybe include a street address or a well-known landmark?" |}]
  /\ last_search_of "web_session"
       (snd (process_query measured_distance re_search_table provider_down
               "parking near Zzyzxville" "web_session" ∅))
     = None.
Proof.
  destruct (location_not_found_turn measured_distance re_search_table provider_down
              "parking near Zzyzxville" "web_session" ∅ "Zzyzxville")
    as (Hout & Htext & _ & _ & Hhist & Hlast & _).
  - vm_compute. reflexivity.
  - vm_compute. reflexivity.
  - discriminate.
  - vm_compute. reflexivity.
  - rewrite Htext in Hout, Hhist.
    split; [exact Hout |]. split; [exact Hhist | apply Hlast].
Defined.

(** C4, the failing input: the message "hello" in a fresh session while
    the language model is down.  The turn returns the greeting and the
    session's history stays empty: the turn is not recorded. *)
Theorem open_conversation_fallback_not_recorded :
  fst (process_query measured_distance re_search_table provider_down
         "hello" "default" ∅) = Returns greeting
  /\ history_of "default"
       (snd (process_query measured_distance re_search_table provider_down
               "hello" "default" ∅)) = []
  /\ history_of "default" ∅ ++ [{| user := "hello"; assistant := greeting |}] <> [].
Proof.
  split; [vm_compute; reflexivity |].
  split; [vm_compute; reflexivity | discriminate].
Qed.

(** ** Worked inputs for the further properties *)

(** the query "parking" finds five car parks along one street, 0, 111,
    222, 333 and 444 m from the point searched from; every other call fails *)
Definition five_items : list RawSpot :=
  [ raw_spot "Car Park A" 51.5 (-0.125);
    raw_spot "Car Park B" 51.501 (-0.125);
    raw_spot "Car Park C" 51.502 (-0.125);
    raw_spot "Car Park D" 51.503 (-0.125);
    raw_spot "Car Park E" 51.504 (-0.125) ].

Definition five_car_parks : World :=
  {| here_geocode := geocoder;
     here_discover := fun r =>
       match r with
       | ByQuery "parking" =>
           Some {| status_code := 200; json := Some {| items := Some five_items |} |}
       | _ => None
       end;
     openrouter := LlmError;
     randint := fun _ a _ => a;
     current_hour := fun _ _ => 12 |}.

(** the same world, except that the category requests find a garage *)
Definition five_car_parks_and_garage : World :=
  {| here_geocode := geocoder;
     here_discover := fun r =>
       match r with
       | ByQuery q => here_discover five_car_parks (ByQuery q)
       | ByCategory _ =>
           Some {| status_code := 200;
                   json := Some {| items := Some [raw_spot "Station Garage" 51.51 (-0.125)] |} |}
       end;
     openrouter := LlmError;
     randint := fun _ a _ => a;
     current_hour := fun _ _ => 12 |}.

(** "hello" while the language model is down: the greeting comes back and
    the history is left as it was; "parking near Zzyzxville" in the same
    world is recorded. *)
Lemma history_after_turn_witness :
  fst (process_query measured_distance re_search_table provider_down
         "hello" "web_session" ∅) = Returns greeting
  /\ history_of "web_session"
       (snd (process_query measured_distance re_search_table provider_down
               "hello" "web_session" ∅))
     = history_of "web_session" ∅
  /\ history_of "web_session"
       (snd (process_query measured_distance re_search_table provider_down
               "parking near Zzyzxville" "web_session" ∅))
     = history_of "web_session" ∅
       ++ [{| user := "parking near Zzyzxville";
              assistant := not_found_text "Zzyzxville" |}].
Proof.
  assert (Hhello : fst (process_query measured_distance re_search_table provider_down
                          "hello" "web_session" ∅) = Returns greeting)
    by (vm_compute; reflexivity).
  split; [exact Hhello |].
  split.
  - apply (proj1 (history_after_turn measured_distance re_search_table provider_down
                    "hello" "web_session" ∅ greeting Hhello)).
    split; [vm_compute; reflexivity |].
    split; left; vm_compute; reflexivity.
  - assert (Hlost : fst (process_query measured_distance re_search_table provider_down
                           "parking near Zzyzxville" "web_session" ∅)
                     = Returns (not_found_text "Zzyzxville"))
      by (vm_compute; reflexivity).
    apply (proj2 (history_after_turn measured_distance re_search_table provider_down
                    "parking near Zzyzxville" "web_session" ∅
                    (not_found_text "Zzyzxville") Hlost)).
    intros (_ & [H | H] & _); vm_compute in H; discriminate.
Defined.

Lemma turn_returns_witness :
  exists response,
    fst (process_query measured_distance re_search_table provider_down
           "which is best?" "web_session" after_search) = Returns response.
Proof.
  exact (turn_returns measured_distance re_search_table after_search
           after_search_reachable provider_down "which is best?" "web_session").
Defined.

Lemma calculate_score_monotone_witness :
  100 <= 600
  /\ 50 <= _calculate_score 600 "parking-garage"
  /\ _calculate_score 600 "parking-garage" <= _calculate_score 100 "parking-garage"
  /\ _calculate_score 100 "parking-garage" <= 90.
Proof.
  split; [lia |]. apply (calculate_score_monotone "parking-garage" 100 600). lia.
Defined.

(** two items without a position: the code measures them to latitude 0,
    longitude 0 *)
Definition no_position : RawSpot :=
  {| title := Some "Car Park"; position := None; address := None; contacts := None |}.

Definition no_position_garage : RawSpot :=
  {| title := Some "Harbour Garage"; position := None;
     address := Some {| label := Some "Quay 1" |}; contacts := None |}.

(** Searched from latitude 0, longitude 0, both items are accepted (at
    0 m), both have the key "0.0000,0.0000", and the second is a duplicate of
    the first; searched from Trafalgar Square they are 5726550 m away and
    rejected. *)
Lemma accepted_spot_key_witness :
  exists d d',
    _process_parking_spot measured_distance 12 no_position 0 0 = Some d
    /\ _process_parking_spot measured_distance 9 no_position_garage 0 0 = Some d'
    /\ position_key d = Some "0.0000,0.0000"
    /\ _is_duplicate d' [d] = Some true
    /\ distance_of measured_distance no_position 51.5 (-0.125) = Some 5726550
    /\ _process_parking_spot measured_distance 12 no_position 51.5 (-0.125) = None.
Proof.
  assert (H : exists d, _process_parking_spot measured_distance 12 no_position 0 0 = Some d)
    by (vm_compute; eexists; reflexivity).
  assert (H' : exists d', _process_parking_spot measured_distance 9 no_position_garage 0 0
                          = Some d')
    by (vm_compute; eexists; reflexivity).
  destruct H as [d Hd]. destruct H' as [d' Hd']. exists d, d'.
  split; [exact Hd |]. split; [exact Hd' |].
  destruct (accepted_spot_key measured_distance 12 no_position 0 0 d Hd)
    as (_ & Hzero & Hdup).
  split; [apply Hzero; reflexivity |].
  split; [apply (Hdup eq_refl 9 no_position_garage 0%float 0%float d' eq_refl Hd') |].
  split; vm_compute; reflexivity.
Defined.

Lemma search_result_entries_witness :
  exists d,
    In d (search_parking measured_distance one_car_park 51.5 (-0.125))
    /\ exists name dist ptype,
         get "name" d = Some (VStr name) /\ name <> ""
         /\ any_in parking_terms (lower name) = true
         /\ get "distance" d = Some (VInt dist) /\ dist <= 3000
         /\ get "walking_time" d = Some (VInt (Z.max 1 (dist / 80)))
         /\ 1 <= Z.max 1 (dist / 80) <= 37
         /\ get "parking_type" d = Some (VStr ptype) /\ In ptype parking_types
         /\ get "score" d = Some (VInt (_calculate_score dist ptype)).
Proof.
  assert (H : exists d, In d (search_parking measured_distance one_car_park 51.5 (-0.125))).
  { vm_compute. eexists. left. reflexivity. }
  destruct H as [d Hd]. exists d. split; [exact Hd |].
  exact (search_result_entries measured_distance one_car_park 51.5 (-0.125) d Hd).
Defined.

Lemma category_passes_only_when_scarce_witness :
  (5 <= length (text_passes measured_distance five_car_parks 51.5 (-0.125)))%nat
  /\ search_parking measured_distance five_car_parks 51.5 (-0.125)
     = search_parking measured_distance five_car_parks_and_garage 51.5 (-0.125).
Proof.
  assert (H : (5 <= length (text_passes measured_distance five_car_parks 51.5 (-0.125)))%nat).
  { vm_compute. repeat constructor. }
  split; [exact H |].
  apply (category_passes_only_when_scarce measured_distance
           five_car_parks five_car_parks_and_garage 51.5 (-0.125)).
  - intros q. reflexivity.
  - intros q i. reflexivity.
  - exact H.
Defined.

Lemma search_when_every_pass_fails_witness :
  search_parking measured_distance provider_down 51.5 (-0.125) = []
  /\ backfilled provider_down trafalgar
       (search_parking measured_distance provider_down 51.5 (-0.125))
     = generate_mock_data provider_down trafalgar.
Proof.
  apply (search_when_every_pass_fails measured_distance provider_down 51.5 (-0.125)
           trafalgar).
  intros r. left. reflexivity.
Defined.

(** after a pass over the five car parks, a later reply that lists the
    third and the first of them again, an hour later, adds nothing *)
Lemma repeated_items_add_nothing_witness :
  process_items measured_distance 51.5 (-0.125)
    [ (raw_spot "Car Park C" 51.502 (-0.125), 13);
      (raw_spot "Car Park A" 51.5 (-0.125), 13) ]
    (process_items measured_distance 51.5 (-0.125) (timed (fun _ => 12) five_items) [])
  = process_items measured_distance 51.5 (-0.125) (timed (fun _ => 12) five_items) [].
Proof.
  apply (proj2 (repeated_items_add_nothing measured_distance 51.5 (-0.125)
                  (timed (fun _ => 12) five_items) [] [] (List.Forall_nil _))).
  intros x [<- | [<- | []]]; cbn; auto.
Defined.

(** the phrase behind "near" ends in a no-break space, which [strip]
    removes *)
Lemma extracted_location_clean_witness :
  extract_location_from_query re_search_table ("parking near Soho" +:+ nbsp) = Some "Soho"
  /\ begins_blank "Soho" = false
  /\ ends_blank "Soho" = false
  /\ strip ("Soho" +:+ nbsp) = "Soho"
  /\ in_list (lower "Soho") stopwords = false.
Proof.
  assert (H : extract_location_from_query re_search_table ("parking near Soho" +:+ nbsp)
              = Some "Soho") by (vm_compute; reflexivity).
  split; [exact H |].
  destruct (extracted_location_clean re_search_table _ _ H)
    as (Hbegin & Hend & _ & Hstop & _).
  split; [exact Hbegin |]. split; [exact Hend |].
  split; [vm_compute; reflexivity | exact Hstop].
Defined.

Lemma follow_up_short_circuit_witness :
  exists answer,
    fst (process_query measured_distance re_search_table provider_down
           "which is best?" "web_session" after_search) = Returns answer
    /\ process_query measured_distance re_search_table provider_down
         "which is best?" "web_session" after_search
       = process_query measured_distance re_search_table one_car_park
           "which is best?" "web_session" after_search.
Proof.
  assert (H : exists answer,
             handle_follow_up_question "which is best?" "web_session"
               (init_session "web_session" after_search) = Ok (Some answer)).
  { vm_compute. eexists. reflexivity. }
  destruct H as [answer H]. exists answer.
  destruct (follow_up_short_circuit measured_distance re_search_table
              provider_down one_car_park "which is best?" "web_session" after_search
              answer H) as (Hsame & Hout & _).
  split; [exact Hout | exact Hsame].
Defined.


Lemma search_turn_result_witness :
  last_search_of "web_session"
    (snd (process_query measured_distance re_search_table one_car_park
            "parking near Trafalgar Square" "web_session" ∅))
  = Some {| spots := final_list measured_distance one_car_park trafalgar;
            location := "London" |}.
Proof.
  destruct (search_turn_result measured_distance re_search_table one_car_park
              "parking near Trafalgar Square" "web_session" ∅
              "Trafalgar Square" trafalgar) as (_ & Hstored & _).
  - vm_compute. reflexivity.
  - vm_compute. reflexivity.
  - discriminate.
  - vm_compute. reflexivity.
  - exact Hstored.
Defined.

(** a message with a no-break space and blanks around it, and no session
    id: answered 200 for "web_session"; a message of white space only is
    answered 400 *)
Lemma chat_replies_witness :
  (exists response c',
     chat measured_distance re_search_table provider_down
       (Some {| req_message := Some (VStr (nbsp +:+ " which is best? "));
                req_session_id := None |})
       after_search
     = Some (Chat200 response "web_session", c'))
  /\ chat measured_distance re_search_table provider_down
       (Some {| req_message := Some (VStr (" " +:+ nbsp)); req_session_id := None |})
       after_search
     = Some (Chat400, after_search).
Proof.
  split.
  - destruct (proj2 (proj2
               (chat_replies measured_distance re_search_table after_search
                  after_search_reachable provider_down
                  {| req_message := Some (VStr (nbsp +:+ " which is best? "));
                     req_session_id := None |}))
               (nbsp +:+ " which is best? ") eq_refl)
      as (_ & _ & Hok).
    destruct (Hok ltac:(vm_compute; discriminate) "web_session" eq_refl)
      as (response & c' & _ & H & _).
    exists response, c'. exact H.
  - apply (proj1 (proj2 (proj2
             (chat_replies measured_distance re_search_table after_search
                after_search_reachable provider_down
                {| req_message := Some (VStr (" " +:+ nbsp)); req_session_id := None |}))
             (" " +:+ nbsp) eq_refl)).
    vm_compute. reflexivity.
Defined.
